(** * Provenance capture of [elephant.buffalo.provenance]

    A shallow embedding of the [Provenance] decorator class and of the
    interface functions [activate], [deactivate] and [save_graph], together
    with the properties of the interception layer, of the object registry and
    of the graph export.

    Python's class attributes of [Provenance] (the process-wide tracking
    state) become an explicit [State] record that every operation threads;
    a raised exception leaves the mutations made so far in place, as in
    Python. *)

From Stdlib Require Import ZArith String Ascii List Bool Lia.
From stdpp Require Import gmap strings list fin_maps.

Set Warnings "-register-all".

Local Open Scope string_scope.
Local Open Scope Z_scope.

(** ** Exceptions and results *)

(** An exception is its class name and its message. *)
Record exn := Exn { exn_class : string; exn_msg : string }.

Definition ValueError (msg : string) : exn := Exn "ValueError" msg.
Definition TypeError (msg : string) : exn := Exn "TypeError" msg.
Definition IndexError (msg : string) : exn := Exn "IndexError" msg.
Definition AttributeError (msg : string) : exn := Exn "AttributeError" msg.

Inductive result (A : Type) : Type :=
| Return (a : A)
| Raise (e : exn).
Arguments Return {A} a.
Arguments Raise {A} e.

(** A computation over a mutable store [S]: it returns or raises, and
    hands back the store as it left it. *)
Definition M (S A : Type) : Type := S -> result A * S.

Definition ret {S A} (a : A) : M S A := fun s => (Return a, s).
Definition raise {S A} (e : exn) : M S A := fun s => (Raise e, s).
Definition bind {S A B} (m : M S A) (k : A -> M S B) : M S B :=
  fun s => match m s with
           | (Return a, s') => k a s'
           | (Raise e, s') => (Raise e, s')
           end.
Definition lift {S A} (r : result A) : M S A := fun s => (r, s).
Definition get {S} : M S S := fun s => (Return s, s).
Definition modify {S} (f : S -> S) : M S unit := fun s => (Return tt, f s).

Notation "'let*' x ':=' m 'in' k" := (bind m (fun x => k))
  (at level 10, x pattern, m at level 100, k at level 200).

(** ** Python values *)

Inductive value : Type :=
| VNone
| VBool (b : bool)
| VInt (z : Z)
| VStr (s : string)
| VList (items : list value)
| VTuple (items : list value).

(** ** Execution frames *)

(** A frame as [inspect] shows it: the file and name of its code object, the
    line being executed and the frame of its caller. *)
Inductive frame : Type :=
| Frame (co_filename : string) (co_name : string) (f_lineno : Z)
        (f_back : option frame).

Definition co_filename (fr : frame) : string :=
  match fr with Frame f _ _ _ => f end.
Definition co_name (fr : frame) : string :=
  match fr with Frame _ n _ _ => n end.
Definition f_lineno (fr : frame) : Z :=
  match fr with Frame _ _ l _ => l end.
Definition f_back (fr : frame) : option frame :=
  match fr with Frame _ _ _ b => b end.

(** Lines 146-151 of [wrapped]: while the frame is a list comprehension's,
    step to the frame behind it.  When there is none,
    [inspect.getframeinfo(None)] raises: the [None] here. *)
Fixpoint skip_listcomp (fr : frame) : option frame :=
  match fr with
  | Frame _ function_name _ back =>
      if String.eqb function_name "<listcomp>" then
        match back with
        | Some outer => skip_listcomp outer
        | None => None
        end
      else Some fr
  end.

(** ** Insertion-ordered dictionaries *)

Section Dict.
Context {K V : Type} (eqb : K -> K -> bool).

(** [d[k] = v]: an existing key keeps its place, a new one goes last. *)
Fixpoint dict_set (d : list (K * V)) (k : K) (v : V) : list (K * V) :=
  match d with
  | [] => [(k, v)]
  | (k', v') :: d' =>
      if eqb k k' then (k', v) :: d' else (k', v') :: dict_set d' k v
  end.
End Dict.

Section DictLookup.
Context {K V : Type} (eqb : K -> K -> bool).

(** [d.get(k)]: the value of the first item whose key is [k]. *)
Fixpoint dict_get (d : list (K * V)) (k : K) : option V :=
  match d with
  | [] => None
  | (k', v) :: d' => if eqb k k' then Some v else dict_get d' k
  end.
End DictLookup.

(** ** Named tuples of the module *)

Record FunctionDefinition := {
  name : string;
  module : string;
  version : option string
}.

(** The identity of a tracked object: its content hash, and the object.
    Modelled from the spec: class [BuffaloObjectHash] of
    [elephant.buffalo.object_hash]; two identities are the same key of the
    registry when their hashes are equal. *)
Record BuffaloObjectHash := {
  hash_value : Z;
  value_of : value
}.

(** ** Strings, as the standard library calls of the module use them *)

Definition ascii_lower (c : ascii) : ascii :=
  let n := N_of_ascii c in
  if ((65 <=? n) && (n <=? 90))%N then ascii_of_N (n + 32) else c.

(** [str.lower], on the ASCII letters; strings are byte strings here. *)
Fixpoint lower (s : string) : string :=
  match s with
  | EmptyString => EmptyString
  | String c s' => String (ascii_lower c) (lower s')
  end.

Definition isspace (c : ascii) : bool :=
  let n := N_of_ascii c in
  (((9 <=? n) && (n <=? 13)) || ((28 <=? n) && (n <=? 32)))%N.

Fixpoint lstrip (s : string) : string :=
  match s with
  | EmptyString => EmptyString
  | String c s' => if isspace c then lstrip s' else s
  end.

Definition reverse_string (s : string) : string :=
  string_of_list_ascii (rev (list_ascii_of_string s)).

(** [str.strip]. *)
Definition strip (s : string) : string :=
  reverse_string (lstrip (reverse_string (lstrip s))).

(** [''.join(lines)]. *)
Definition join (lines : list string) : string :=
  fold_right String.append EmptyString lines.

(** [p.rfind(c)] for a one-character [c]: the last index, or -1. *)
Fixpoint rfind_from (c : ascii) (p : string) (i : Z) (found : Z) : Z :=
  match p with
  | EmptyString => found
  | String a p' =>
      rfind_from c p' (i + 1) (if Ascii.eqb a c then i else found)
  end.

Definition rfind (c : ascii) (p : string) : Z := rfind_from c p 0 (-1).

(** The slice [p[i:j]] for [0 <= i <= j]. *)
Definition slice (p : string) (i j : Z) : string :=
  substring (Z.to_nat i) (Z.to_nat (j - i)) p.

(** The loop of [genericpath._splitext] that skips leading dots; [n]
    bounds the iterations by [dotIndex - filenameIndex]. *)
Fixpoint _splitext_loop (p : string) (dotIndex filenameIndex : Z) (n : nat)
  : string * string :=
  match n with
  | O => (p, EmptyString)
  | S n' =>
      if filenameIndex <? dotIndex then
        if negb (String.eqb (slice p filenameIndex (filenameIndex + 1)) ".")
        then (slice p 0 dotIndex,
              slice p dotIndex (Z.of_nat (String.length p)))
        else _splitext_loop p dotIndex (filenameIndex + 1) n'
      else (p, EmptyString)
  end.

(** [os.path.splitext] of [posixpath]: separator [/], no alternative
    separator, extension separator [.]. *)
Definition splitext (p : string) : string * string :=
  let sepIndex := rfind "/" p in
  let dotIndex := rfind "." p in
  if dotIndex >? sepIndex then
    _splitext_loop p dotIndex (sepIndex + 1)
                   (Z.to_nat (dotIndex - (sepIndex + 1)))
  else (p, EmptyString).

(** [x in l] for a list of strings. *)
Definition str_in (x : string) (l : list string) : bool :=
  existsb (String.eqb x) l.

(** ** The collaborators of the module *)

(** What the module takes from the Python runtime and from its sibling
    modules [object_hash] and [code_lines]. *)
Class Platform := {
  (** Syntax trees, and [ast.parse]. *)
  Ast : Type;
  ast_parse : string -> result Ast;
  (** [inspect.getsourcelines(frame)[0]]. *)
  getsourcelines : frame -> result (list string);
  (** Modelled from the spec: the content hash that [BuffaloObjectHash]
      computes for an object, deterministic and defined on every value. *)
  content_hash : value -> Z;
  (** Modelled from the spec: class [SourceCodeAnalyzer], built from the
      source lines, the starting line and the scope name;
      [extract_multiline_statement] returns the statement of a line or
      reports a resolution error. *)
  Analyzer : Type;
  SourceCodeAnalyzer : list string -> Z -> string -> Analyzer;
  extract_multiline_statement : Analyzer -> Z -> result string
}.

(** ** The tracking session *)

Section Session.

Context `{Platform}.

Record AnalysisStep := {
  function : FunctionDefinition;
  input : list (string * BuffaloObjectHash);
  params : list (string * value);
  output : list (nat * BuffaloObjectHash);
  arg_map : list string;
  kwarg_map : list string;
  call_ast : Ast;
  code_statement : string
}.

(** The class attributes of [Provenance]. *)
Record State := {
  active : bool;
  history : list AnalysisStep;
  objects : gmap Z BuffaloObjectHash;
  calling_frame : option frame;
  source_code : option (list string);
  source_lineno : option Z;
  source_file : option string;
  source_name : option string;
  code_analyzer : option Analyzer;
  frame_ast : option Ast
}.

(** The class body, lines 97-107. *)
Definition initial_state : State := {|
  active := false;
  history := [];
  objects := ∅;
  calling_frame := None;
  source_code := None;
  source_lineno := None;
  source_file := None;
  source_name := None;
  code_analyzer := None;
  frame_ast := None
|}.

Definition set_active (b : bool) (s : State) : State :=
  {| active := b; history := history s; objects := objects s;
     calling_frame := calling_frame s; source_code := source_code s;
     source_lineno := source_lineno s; source_file := source_file s;
     source_name := source_name s; code_analyzer := code_analyzer s;
     frame_ast := frame_ast s |}.

Definition set_history (h : list AnalysisStep) (s : State) : State :=
  {| active := active s; history := h; objects := objects s;
     calling_frame := calling_frame s; source_code := source_code s;
     source_lineno := source_lineno s; source_file := source_file s;
     source_name := source_name s; code_analyzer := code_analyzer s;
     frame_ast := frame_ast s |}.

Definition set_objects (o : gmap Z BuffaloObjectHash) (s : State) : State :=
  {| active := active s; history := history s; objects := o;
     calling_frame := calling_frame s; source_code := source_code s;
     source_lineno := source_lineno s; source_file := source_file s;
     source_name := source_name s; code_analyzer := code_analyzer s;
     frame_ast := frame_ast s |}.

(** An instance of [Provenance] holds the declared input names. *)
Record Provenance := { inputs : list value }.

(** A Python callable: the metadata that [functools.wraps] copies, the
    names of [signature(f).parameters], and what a call does given the
    frame it is made from. *)
Record callable := {
  __name__ : string;
  __module__ : string;
  __doc__ : option string;
  parameters : list string;
  call : list value -> list (string * value) -> frame -> M State value
}.

End Session.

(** What the module takes from its sibling modules [ast_analysis] and
    [graph], which work on the session's records. *)
Class Analysis `{Platform} := {
  (** Modelled from the spec: [CallAST(self, inputs, output).visit(tree)],
      which attaches the static relationships it finds to the session. *)
  CallAST_visit :
    Provenance -> Ast -> list (string * BuffaloObjectHash) ->
    list (nat * BuffaloObjectHash) -> M State unit;
  (** Modelled from the spec: class [BuffaloProvenanceGraph] with
      [add_step] and [to_pyvis]; [to_pyvis] is what writes to the file
      system, the [World] here. *)
  Graph : Type;
  World : Type;
  BuffaloProvenanceGraph : Graph;
  add_step : Graph -> AnalysisStep -> Graph;
  to_pyvis : Graph -> string -> bool -> M World unit
}.

(** ** The operations of the module *)

Section Operations.

Context `{Analysis}.

(** *** [Provenance.__init__], lines 109-112 *)
Definition __init__ (inputs : value) : result Provenance :=
  match inputs with
  | VList names => Return {| inputs := names |}
  | _ => Raise (ValueError "`inputs` must be a list")
  end.

(** *** [Provenance.add], lines 296-316 *)
Definition add (obj : value) : M State BuffaloObjectHash := fun s =>
  let object_hash := {| hash_value := content_hash obj; value_of := obj |} in
  match objects s !! hash_value object_hash with
  | None =>
      (Return object_hash,
       set_objects (<[hash_value object_hash := object_hash]> (objects s)) s)
  | Some known => (Return known, s)
  end.

(** *** The loops of [wrapped] *)

(** [key in self.inputs]: a string equals a list element only when the
    element is that string. *)
Definition in_inputs (self : Provenance) (key : string) : bool :=
  existsb (fun v => match v with
                    | VStr s => String.eqb key s
                    | _ => false
                    end) (inputs self).

(** Lines 190-193: each positional argument is stored under the name of
    the parameter at its position; [params[arg_id]] raises past the end of
    the tuple. *)
Fixpoint bind_args (params : list string) (arg_id : nat) (args : list value)
    (input_data : list (string * value)) (input_args_names : list string)
  : result (list (string * value) * list string) :=
  match args with
  | [] => Return (input_data, input_args_names)
  | arg_val :: rest =>
      match params !! arg_id with
      | None => Raise (IndexError "tuple index out of range")
      | Some arg_name =>
          bind_args params (S arg_id) rest
                    (dict_set String.eqb input_data arg_name arg_val)
                    (input_args_names ++ [arg_name])
      end
  end.

(** Lines 197-200, over the items of [kwargs]. *)
Fixpoint bind_kwargs (kwargs : list (string * value))
    (input_data : list (string * value)) (input_kwargs_names : list string)
  : list (string * value) * list string :=
  match kwargs with
  | [] => (input_data, input_kwargs_names)
  | (kwarg_name, kwarg_val) :: rest =>
      bind_kwargs rest
                  (dict_set String.eqb input_data kwarg_name kwarg_val)
                  (input_kwargs_names ++ [kwarg_name])
  end.

(** Lines 209-215: the declared inputs are registered, the other
    arguments are kept as they are. *)
Fixpoint split_inputs (self : Provenance) (items : list (string * value))
    (parameters : list (string * value))
    (inputs : list (string * BuffaloObjectHash))
  : M State (list (string * value) * list (string * BuffaloObjectHash)) :=
  match items with
  | [] => ret (parameters, inputs)
  | (key, val) :: rest =>
      if in_inputs self key then
        let* h := add val in
        split_inputs self rest parameters (dict_set String.eqb inputs key h)
      else
        split_inputs self rest (dict_set String.eqb parameters key val) inputs
  end.

(** Lines 221-222: the elements of a returned tuple, each under its
    index. *)
Fixpoint add_items (index : nat) (items : list value)
    (outputs : list (nat * BuffaloObjectHash))
  : M State (list (nat * BuffaloObjectHash)) :=
  match items with
  | [] => ret outputs
  | item :: rest =>
      let* h := add item in
      add_items (S index) rest (dict_set Nat.eqb outputs index h)
  end.

(** The file of this module, and the frame of [wrapped] while it runs the
    decorated function at line 160. *)
Definition __file__ : string := "elephant/buffalo/provenance.py".

Definition wrapped_frame (caller : frame) : frame :=
  Frame __file__ "wrapped" 160 (Some caller).

(** Lines 141-158 of [wrapped]: the line of the call when it is made from
    the tracked scope; [caller] is [inspect.currentframe().f_back].
    [frame_info.filename] and [inspect.getfile(frame)] are both taken to be
    the file name of the frame's code object. *)
Definition calling_lineno (caller : frame) : M State (option Z) := fun s =>
  if active s then
    match skip_listcomp caller with
    | None =>
        (Raise (AttributeError
                  "'NoneType' object has no attribute 'f_lineno'"), s)
    | Some frame =>
        if match source_file s with
           | Some f => String.eqb (co_filename frame) f
           | None => false
           end &&
           match source_name s with
           | Some n => String.eqb (co_name frame) n
           | None => false
           end
        then (Return (Some (f_lineno frame)), s)
        else (Return None, s)
    end
  else (Return None, s).

(** Lines 219-224 of [wrapped]. *)
Definition register_outputs (function_output : value)
  : M State (list (nat * BuffaloObjectHash)) :=
  match function_output with
  | VTuple items => add_items 0 items []
  | _ => let* h := add function_output in ret (dict_set Nat.eqb [] 0%nat h)
  end.

(** *** [wrapped], lines 131-241 *)
Definition wrapped (self : Provenance) (function : callable)
    (args : list value) (kwargs : list (string * value)) (caller : frame)
  : M State value :=
  (* lines 141-158 *)
  let* lineno := calling_lineno caller in
  (* line 160 *)
  let* function_output := call function args kwargs (wrapped_frame caller) in
  (* line 163 *)
  let* s := get in
  match active s, lineno with
  | true, Some lineno =>
      (* lines 169-171 *)
      let* source_line :=
        match code_analyzer s with
        | Some analyzer => lift (extract_multiline_statement analyzer lineno)
        | None => raise (AttributeError
            "'NoneType' object has no attribute 'extract_multiline_statement'")
        end in
      let* ast_tree := lift (ast_parse source_line) in
      (* lines 176-177 *)
      let function_name :=
        {| name := __name__ function; module := __module__ function;
           version := None |} in
      (* lines 187-200 *)
      let* (input_data, input_args_names) :=
        lift (bind_args (parameters function) 0 args [] []) in
      let '(input_data, input_kwargs_names) :=
        bind_kwargs kwargs input_data [] in
      (* lines 209-215 *)
      let* (parameters, inputs) := split_inputs self input_data [] [] in
      (* lines 219-224 *)
      let* outputs := register_outputs function_output in
      (* line 228 *)
      let* _ := CallAST_visit self ast_tree inputs outputs in
      (* lines 232-239 *)
      let step :=
        {| function := function_name; input := inputs; params := parameters;
           output := outputs; arg_map := input_args_names;
           kwarg_map := input_kwargs_names; call_ast := ast_tree;
           code_statement := source_line |} in
      let* _ := modify (fun s => set_history (history s ++ [step]) s) in
      ret function_output
  | _, _ => ret function_output
  end.

(** [functools.wraps(wrapped)(wrapper)]: the wrapper takes the name, the
    module and the docstring of the wrapped callable, and [signature]
    follows [__wrapped__] to its parameters. *)
Definition wraps (wrapped wrapper : callable) : callable :=
  {| __name__ := __name__ wrapped;
     __module__ := __module__ wrapped;
     __doc__ := __doc__ wrapped;
     parameters := parameters wrapped;
     call := call wrapper |}.

(** *** [Provenance.__call__], lines 128-243 *)
Definition __call__ (self : Provenance) (function : callable) : callable :=
  wraps function
        {| __name__ := "wrapped";
           __module__ := "elephant.buffalo.provenance";
           __doc__ := None;
           parameters := ["args"; "kwargs"];
           call := wrapped self function |}.

(** *** [Provenance.set_calling_frame], lines 245-260 *)
Definition set_calling_frame (frame : frame) : M State unit := fun s =>
  let file := co_filename frame in
  let name := co_name frame in
  let lineno := if String.eqb name "<module>" then 1 else f_lineno frame in
  let s1 :=
    {| active := active s; history := history s; objects := objects s;
       calling_frame := Some frame; source_code := source_code s;
       source_lineno := Some lineno; source_file := Some file;
       source_name := Some name; code_analyzer := code_analyzer s;
       frame_ast := frame_ast s |} in
  match getsourcelines frame with
  | Raise e => (Raise e, s1)
  | Return lines =>
      let s2 :=
        {| active := active s1; history := history s1;
           objects := objects s1; calling_frame := calling_frame s1;
           source_code := Some lines; source_lineno := source_lineno s1;
           source_file := source_file s1; source_name := source_name s1;
           code_analyzer := code_analyzer s1; frame_ast := frame_ast s1 |} in
      match ast_parse (strip (join lines)) with
      | Raise e => (Raise e, s2)
      | Return tree =>
          (Return tt,
           {| active := active s2; history := history s2;
              objects := objects s2; calling_frame := calling_frame s2;
              source_code := source_code s2;
              source_lineno := source_lineno s2;
              source_file := source_file s2; source_name := source_name s2;
              code_analyzer := Some (SourceCodeAnalyzer lines lineno name);
              frame_ast := Some tree |})
      end
  end.

(** *** [activate], lines 346-354; [caller] is the frame that calls it *)
Definition activate (caller : frame) : M State unit :=
  let* _ := set_calling_frame caller in
  modify (set_active true).

(** *** [deactivate], lines 357-361 *)
Definition deactivate : M State unit := modify (set_active false).

(** *** [Provenance.save_graph], lines 270-294 *)
Definition Provenance_save_graph (filename : string) (show : bool)
    (s : State) : M World unit :=
  let '(name, ext) := splitext filename in
  if negb (str_in (lower ext) [".html"; ".htm"]) then
    raise (ValueError "Filename must have HTML extension (.html, .htm)!")
  else
    let graph := fold_left add_step (history s) BuffaloProvenanceGraph in
    to_pyvis graph filename show.

(** *** [save_graph], lines 371-383 *)
Definition save_graph (filename : string) (show : bool) (s : State)
  : M World unit :=
  Provenance_save_graph filename show s.

End Operations.

(** ** Variables of the tracked script *)

Definition KeyError (key : string) : exn :=
  Exn "KeyError" ("'" ++ key ++ "'").

Section ScriptVariables.

Context `{Platform}.

(** [frame.f_locals], the local variables of a frame. *)
Variable f_locals : frame -> list (string * value).

(** *** [Provenance.add_script_variable], lines 318-339 *)
Definition add_script_variable (name : string)
  : M State (value * BuffaloObjectHash) := fun s =>
  match calling_frame s with
  | None =>
      (Raise (AttributeError
                "'NoneType' object has no attribute 'f_locals'"), s)
  | Some frame =>
      match dict_get String.eqb (f_locals frame) name with
      | None => (Raise (KeyError name), s)
      | Some instance =>
          (let* object_hash := add instance in
           ret (instance, object_hash)) s
      end
  end.

End ScriptVariables.

(** ** What the properties are stated with *)

(** *** Case-insensitive extensions *)

Definition is_letter (c : ascii) : bool :=
  let n := N_of_ascii c in
  (((65 <=? n) && (n <=? 90)) || ((97 <=? n) && (n <=? 122)))%N.

(** Two characters that are equal, or the two cases of one letter. *)
Definition same_letter (c d : ascii) : bool :=
  Ascii.eqb c d ||
  (is_letter c && is_letter d &&
   (N.lxor (N_of_ascii c) (N_of_ascii d) =? 32)%N).

(** Equality of strings up to the case of their letters. *)
Fixpoint eq_nocase (a b : string) : bool :=
  match a, b with
  | EmptyString, EmptyString => true
  | String c a', String d b' => same_letter c d && eq_nocase a' b'
  | _, _ => false
  end.

(** The extension is [.html] or [.htm], whatever the case of its
    letters. *)
Definition html_extension (ext : string) : bool :=
  eq_nocase ext ".html" || eq_nocase ext ".htm".

(** A character that [ascii_lower] maps to [t] is [t] up to case. *)
Definition lower_exact (t : ascii) : Prop :=
  forall c, Ascii.eqb (ascii_lower c) t = same_letter c t.

Fixpoint all_lower_exact (target : string) : Prop :=
  match target with
  | EmptyString => True
  | String t target' => lower_exact t /\ all_lower_exact target'
  end.

(** *** The calling scope *)

(** The scope a call is attributed to: the caller itself, or, for a call
    made inside list comprehensions, the first enclosing frame that is not
    one. *)
Inductive enclosing_scope : frame -> frame -> Prop :=
| scope_here fr :
    co_name fr <> "<listcomp>" -> enclosing_scope fr fr
| scope_outward fr outer scope :
    co_name fr = "<listcomp>" -> f_back fr = Some outer ->
    enclosing_scope outer scope -> enclosing_scope fr scope.

Section Specification.

Context `{Analysis}.

(** The scope is the one bound by [activate]. *)
Definition tracked_scope (scope : frame) (s : State) : Prop :=
  source_file s = Some (co_filename scope) /\
  source_name s = Some (co_name scope).

(** Every record of the registry is stored under its own hash. *)
Definition registry_wf (s : State) : Prop :=
  forall k r, objects s !! k = Some r -> hash_value r = k.

(** [m] takes every store to one related to it by [R], whether it returns
    or raises. *)
Definition within {A} (R : State -> State -> Prop) (m : M State A) : Prop :=
  forall s, R s (snd (m s)).

(** No record of the registry is lost from [s] to [s']. *)
Definition keeps_records (s s' : State) : Prop := objects s ⊆ objects s'.

(** The registry stays keyed by the hashes of its records. *)
Definition keeps_wf (s s' : State) : Prop := registry_wf s -> registry_wf s'.

(** The step that [wrapped] builds at lines 232-234. *)
Definition step_of (function : callable)
    (ins : list (string * BuffaloObjectHash)) (ps : list (string * value))
    (outs : list (nat * BuffaloObjectHash)) (names knames : list string)
    (tree : Ast) (source_line : string) : AnalysisStep :=
  {| function := {| name := __name__ function;
                    module := __module__ function;
                    version := None |};
     input := ins; params := ps; output := outs;
     arg_map := names; kwarg_map := knames;
     call_ast := tree; code_statement := source_line |}.

(** What a script does to the session. *)
Inductive operation : Type :=
| OpAdd (obj : value)
| OpActivate (caller : frame)
| OpDeactivate
| OpCall (self : Provenance) (function : callable) (args : list value)
         (kwargs : list (string * value)) (caller : frame).

Definition run (op : operation) (s : State) : State :=
  match op with
  | OpAdd obj => snd (add obj s)
  | OpActivate caller => snd (activate caller s)
  | OpDeactivate => snd (deactivate s)
  | OpCall self function args kwargs caller =>
      snd (call (__call__ self function) args kwargs caller s)
  end.

Definition run_all (ops : list operation) (s : State) : State :=
  fold_left (fun s op => run op s) ops s.

(** The code outside this module that an operation runs, the decorated
    function and the syntax tree visitor, stays within [R]. *)
Definition respects (R : State -> State -> Prop) (op : operation) : Prop :=
  match op with
  | OpCall self function args kwargs caller =>
      within R (call function args kwargs (wrapped_frame caller))
      /\ forall tree ins outs, within R (CallAST_visit self tree ins outs)
  | _ => True
  end.

(** That code removes no record of the registry. *)
Definition removes_no_record (op : operation) : Prop :=
  respects keeps_records op.

End Specification.

(** *** What a session keeps *)

Section Invariants.

Context `{Analysis}.

(** The history only grows at its end. *)
Definition history_grows (s s' : State) : Prop :=
  history s `prefix_of` history s'.

(** The history is left as it is. *)
Definition same_history (s s' : State) : Prop := history s' = history s.

(** The activation flag and everything [activate] binds are left as they
    are. *)
Definition same_binding (s s' : State) : Prop :=
  active s' = active s /\
  calling_frame s' = calling_frame s /\
  source_code s' = source_code s /\
  source_lineno s' = source_lineno s /\
  source_file s' = source_file s /\
  source_name s' = source_name s /\
  code_analyzer s' = code_analyzer s /\
  frame_ast s' = frame_ast s.

(** Lines 187-200 of [wrapped]: the dictionary [input_data], the
    positional arguments under the names of their parameters, then the
    keyword arguments under their own names. *)
Definition bound_arguments (f : callable) (args : list value)
    (kwargs : list (string * value)) : result (list (string * value)) :=
  match bind_args (parameters f) 0 args [] [] with
  | Return (input_data, _) => Return (fst (bind_kwargs kwargs input_data []))
  | Raise e => Raise e
  end.

(** The identity is the record that the registry holds for its hash. *)
Definition registered (s : State) (h : BuffaloObjectHash) : Prop :=
  objects s !! hash_value h = Some h.

(** The inputs and the outputs of a step are records of the registry. *)
Definition step_registered (s : State) (step : AnalysisStep) : Prop :=
  Forall (fun kh => registered s (snd kh)) (input step) /\
  Forall (fun ih => registered s (snd ih)) (output step).

(** The registry is keyed by the hashes of its records, and holds every
    identity that the history refers to. *)
Definition session_consistent (s : State) : Prop :=
  registry_wf s /\ Forall (step_registered s) (history s).

(** From [s] to [s'] no record is lost and a consistent session stays
    consistent. *)
Definition keeps_consistent (s s' : State) : Prop :=
  keeps_records s s' /\ (session_consistent s -> session_consistent s').

End Invariants.

(** ** A small tracked script, to run the operations on *)

Module Demo.

(** The tracked script [analysis.py]. *)
Definition script : list string :=
  ["total = add(1, 2)";
   "lo, hi = bounds(total)";
   "both = as_list(total)";
   "squares = [square(total) for _ in range(2)]"].

Fixpoint hash_of (v : value) : Z :=
  match v with
  | VNone => 0
  | VBool b => if b then 1 else 2
  | VInt z => 3 + 2 * z
  | VStr s => 5 + Z.of_nat (String.length s)
  | VList items => fold_right (fun x acc => hash_of x + 31 * acc) 7 items
  | VTuple items => fold_right (fun x acc => hash_of x + 37 * acc) 11 items
  end.

(** The statement of a line is the line itself; a line outside the
    listing cannot be resolved. *)
Definition statement_at (a : list string * Z) (lineno : Z)
  : result string :=
  if lineno <? snd a then Raise (Exn "ValueError" "statement not found")
  else match fst a !! Z.to_nat (lineno - snd a) with
       | Some line => Return line
       | None => Raise (Exn "ValueError" "statement not found")
       end.

Definition platform : Platform := {|
  Ast := string;
  ast_parse := fun src =>
    if String.eqb src EmptyString
    then Raise (Exn "SyntaxError" "invalid syntax")
    else Return src;
  getsourcelines := fun fr =>
    if String.eqb (co_filename fr) "analysis.py" then Return script
    else Raise (Exn "OSError" "could not get source code");
  content_hash := hash_of;
  Analyzer := list string * Z;
  SourceCodeAnalyzer := fun lines lineno _ => (lines, lineno);
  extract_multiline_statement := statement_at
|}.

#[local] Existing Instance platform.

Definition analysis : Analysis := {|
  CallAST_visit := fun _ _ _ _ => ret tt;
  Graph := list AnalysisStep;
  World := list (string * list AnalysisStep);
  BuffaloProvenanceGraph := [];
  add_step := fun g step => (g ++ [step])%list;
  to_pyvis := fun g filename _ w => (Return tt, (filename, g) :: w)
|}.

#[local] Existing Instance analysis.

Definition plain (fname : string) (names : list string)
    (body : list value -> result value) : callable :=
  {| __name__ := fname; __module__ := "__main__"; __doc__ := None;
     parameters := names;
     call := fun args _ _ => lift (body args) |}.

Definition add_fn : callable :=
  plain "add" ["a"; "b"]
        (fun args => match args with
                     | [VInt a; VInt b] => Return (VInt (a + b))
                     | _ => Raise (TypeError "unsupported operand")
                     end).



Definition square_fn : callable :=
  plain "square" ["x"]
        (fun args => match args with
                     | [VInt x] => Return (VInt (x * x))
                     | _ => Raise (TypeError "unsupported operand")
                     end).

Definition tracker (names : list string) : Provenance :=
  {| inputs := map VStr names |}.

(** Frames: the script at a line, a list comprehension of the script, and
    a function of another file called from the script. *)
Definition script_frame (lineno : Z) : frame :=
  Frame "analysis.py" "<module>" lineno None.

Definition listcomp_frame (lineno : Z) : frame :=
  Frame "analysis.py" "<listcomp>" lineno (Some (script_frame lineno)).

Definition library_frame : frame :=
  Frame "library.py" "helper" 10 (Some (script_frame 1)).

(** The session after [activate()] at the top of the script. *)
Definition tracking : State :=
  snd (activate (script_frame 1) initial_state).

(** A session: activation, a recorded call, deactivation, and a new
    activation. *)
Definition session : list operation :=
  [OpActivate (script_frame 1);
   OpCall (tracker ["a"; "b"]) add_fn [VInt 1; VInt 2] [] (script_frame 1);
   OpDeactivate;
   OpActivate (script_frame 1)].

(** A list comprehension of the library function, and a call that
    raises. *)
Definition library_listcomp_frame : frame :=
  Frame "library.py" "<listcomp>" 11 (Some library_frame).

Definition failing_fn : callable :=
  plain "failing" ["x"] (fun _ => Raise (ValueError "bad input")).

End Demo.

(** ** The script of [examples/run_psd.py], at module level *)

Module Psd.

Definition script : list string :=
  ["provenance.activate()";
   "obj = welch_psd(signal)";
   "freqs, psd = obj";
   "avg_psd = mean(psd, axis=0)";
   "plot_lfp_psd(axes, freqs, avg_psd, 'AnalysisObject', freq_range=[0, 49])";
   "peak = largest(low, high)"].

Definition platform : Platform := {|
  Ast := string;
  ast_parse := fun src =>
    if String.eqb src EmptyString
    then Raise (Exn "SyntaxError" "invalid syntax")
    else Return src;
  getsourcelines := fun fr =>
    if String.eqb (co_filename fr) "run_psd.py" then Return script
    else Raise (Exn "OSError" "could not get source code");
  content_hash := Demo.hash_of;
  Analyzer := list string * Z;
  SourceCodeAnalyzer := fun lines lineno _ => (lines, lineno);
  extract_multiline_statement := Demo.statement_at
|}.

#[local] Existing Instance platform.

Definition analysis : Analysis := {|
  CallAST_visit := fun _ _ _ _ => ret tt;
  Graph := list AnalysisStep;
  World := list (string * list AnalysisStep);
  BuffaloProvenanceGraph := [];
  add_step := fun g step => (g ++ [step])%list;
  to_pyvis := fun g filename _ w => (Return tt, (filename, g) :: w)
|}.

#[local] Existing Instance analysis.

(** The values of the script: a signal, its frequencies and its power
    spectrum, and the plot axes. *)
Definition signal : value := VList [VInt 5; VInt 7; VInt 5; VInt 7].
Definition freqs : value := VList [VInt 0; VInt 30].
Definition psd : value := VList [VInt 1; VInt 50].
Definition avg_psd : value := VInt 25.
Definition axes : value := VStr "axes".

(** [welch_psd = Provenance(inputs=['signal'])(welch_psd)], line 15. *)
Definition welch_psd : callable :=
  {| __name__ := "welch_psd"; __module__ := "elephant.spectral";
     __doc__ := None;
     parameters := ["signal"; "num_seg"; "len_seg"; "freq_res"; "overlap";
                    "fs"; "window"; "nfft"; "detrend"; "return_onesided";
                    "scaling"; "axis"];
     call := fun _ _ _ => ret (VTuple [freqs; psd]) |}.

(** [plot_lfp_psd], lines 19-28: it returns nothing. *)
Definition plot_lfp_psd : callable :=
  {| __name__ := "plot_lfp_psd"; __module__ := "__main__"; __doc__ := None;
     parameters := ["axes"; "freqs"; "psd"; "label"; "freq_range"; "kwargs"];
     call := fun _ _ _ => ret VNone |}.

(** A function declared with a variable number of positional arguments,
    [def largest( *values )]: one name in its signature. *)
Definition largest : callable :=
  {| __name__ := "largest"; __module__ := "__main__"; __doc__ := None;
     parameters := ["values"];
     call := fun _ _ _ => ret (VInt 50) |}.

(** A function that switches tracking off. *)
Definition stop_tracking : callable :=
  {| __name__ := "stop_tracking"; __module__ := "__main__"; __doc__ := None;
     parameters := [];
     call := fun _ _ _ => let* _ := deactivate in ret VNone |}.

Definition plot_inputs : Provenance :=
  {| inputs := [VStr "axes"; VStr "freqs"; VStr "psd"] |}.

Definition script_frame (lineno : Z) : frame :=
  Frame "run_psd.py" "<module>" lineno None.

Definition listcomp_frame (lineno : Z) : frame :=
  Frame "run_psd.py" "<listcomp>" lineno (Some (script_frame lineno)).

(** A frame whose source cannot be read. *)
Definition unreadable_frame : frame := Frame "<stdin>" "<module>" 1 None.

(** The local variables of the script's frame. *)
Definition locals (fr : frame) : list (string * value) :=
  if String.eqb (co_filename fr) "run_psd.py"
  then [("signal", signal); ("freqs", freqs); ("psd", psd)]
  else [].

Definition tracking : State :=
  snd (activate (script_frame 1) initial_state).

(** The calls of the script, then a deactivation and a new activation. *)
Definition session : list operation :=
  [OpActivate (script_frame 1);
   OpCall {| inputs := [VStr "signal"] |} welch_psd [signal] []
          (script_frame 2);
   OpCall plot_inputs plot_lfp_psd [axes; freqs; avg_psd; VStr "AnalysisObject"]
          [("freq_range", VList [VInt 0; VInt 49])] (script_frame 5);
   OpAdd signal;
   OpDeactivate;
   OpActivate unreadable_frame].

End Psd.

Lemma skip_listcomp_sound :
  forall caller scope,
    skip_listcomp caller = Some scope -> enclosing_scope caller scope.
Proof.
  fix IH 1.
  intros [file fname line back] scope; simpl.
  destruct (String.eqb fname "<listcomp>") eqn:E.
  - apply String.eqb_eq in E.
    destruct back as [outer|]; [|discriminate].
    intros Hs. eapply scope_outward; eauto.
  - apply String.eqb_neq in E.
    intros [= <-]. now apply scope_here.
Qed.

Lemma skip_listcomp_complete caller scope :
  enclosing_scope caller scope -> skip_listcomp caller = Some scope.
Proof.
  induction 1 as [[file fname line back] Hn
                 |[file fname line back] outer scope Hn Hb _ IH]; simpl in *.
  - apply String.eqb_neq in Hn. now rewrite Hn.
  - subst. now rewrite String.eqb_refl.
Qed.

Lemma enclosing_scope_named caller scope :
  enclosing_scope caller scope -> co_name scope <> "<listcomp>".
Proof. induction 1; auto. Qed.

Section Properties.

Context `{Analysis}.

(** *** The calling line *)

Lemma calling_lineno_inactive caller s :
  active s = false -> calling_lineno caller s = (Return None, s).
Proof. unfold calling_lineno. now intros ->. Qed.

Lemma calling_lineno_tracked caller scope s :
  active s = true -> enclosing_scope caller scope -> tracked_scope scope s ->
  calling_lineno caller s = (Return (Some (f_lineno scope)), s).
Proof.
  intros Ha Hs [Hf Hn]. unfold calling_lineno.
  rewrite Ha, (skip_listcomp_complete _ _ Hs), Hf, Hn.
  now rewrite !String.eqb_refl.
Qed.

Lemma calling_lineno_elsewhere caller scope s :
  active s = true -> enclosing_scope caller scope ->
  ~ tracked_scope scope s ->
  calling_lineno caller s = (Return None, s).
Proof.
  intros Ha Hs Hn. unfold calling_lineno.
  rewrite Ha, (skip_listcomp_complete _ _ Hs).
  destruct (source_file s) as [f|] eqn:Ef; [|reflexivity].
  destruct (source_name s) as [n|] eqn:En;
    [|now rewrite andb_false_r].
  destruct (String.eqb (co_filename scope) f) eqn:E1; [|reflexivity].
  destruct (String.eqb (co_name scope) n) eqn:E2; [|reflexivity].
  apply String.eqb_eq in E1, E2. subst.
  exfalso. apply Hn. now split.
Qed.

(** Without a calling line, [wrapped] is the decorated function. *)
Lemma wrapped_without_lineno self function args kwargs caller s :
  calling_lineno caller s = (Return None, s) ->
  wrapped self function args kwargs caller s =
  call function args kwargs (wrapped_frame caller) s.
Proof.
  intros Hl. unfold wrapped, bind at 1. rewrite Hl.
  unfold bind at 1.
  destruct (call function args kwargs (wrapped_frame caller) s)
    as [[out|e] s1]; [|reflexivity].
  unfold bind, get, ret. now destruct (active s1).
Qed.

(** An exception of the decorated function ends [wrapped]. *)
Lemma wrapped_function_raises self function args kwargs caller s lineno e s1 :
  calling_lineno caller s = (Return lineno, s) ->
  call function args kwargs (wrapped_frame caller) s = (Raise e, s1) ->
  wrapped self function args kwargs caller s = (Raise e, s1).
Proof.
  intros Hl Hc. unfold wrapped, bind at 1. rewrite Hl.
  unfold bind at 1. now rewrite Hc.
Qed.

(** *** Relations that every step of a computation respects *)

Section Within.

Variable R : State -> State -> Prop.
Hypothesis R_refl : forall s, R s s.
Hypothesis R_trans : forall s1 s2 s3, R s1 s2 -> R s2 s3 -> R s1 s3.

Lemma within_ret {A} (a : A) : within R (ret a).
Proof. intros s. apply R_refl. Qed.

Lemma within_raise {A} e : within R (@raise State A e).
Proof. intros s. apply R_refl. Qed.

Lemma within_lift {A} (r : result A) : within R (lift r).
Proof. intros s. apply R_refl. Qed.

Lemma within_get : within R (@get State).
Proof. intros s. apply R_refl. Qed.

Lemma within_bind {A B} (m : M State A) (k : A -> M State B) :
  within R m -> (forall a, within R (k a)) -> within R (bind m k).
Proof.
  intros Hm Hk s. unfold bind. specialize (Hm s).
  destruct (m s) as [[a|e] s1]; simpl in *; [|exact Hm].
  eapply R_trans; [exact Hm|apply Hk].
Qed.

Hypothesis R_add : forall obj, within R (add obj).
Hypothesis R_history : forall h s, R s (set_history h s).

Lemma within_calling_lineno caller : within R (calling_lineno caller).
Proof.
  intros s. unfold calling_lineno.
  destruct (active s); [|apply R_refl].
  destruct (skip_listcomp caller); [|apply R_refl].
  match goal with |- context [if ?b then _ else _] => destruct b end;
    apply R_refl.
Qed.

Lemma within_split_inputs self items :
  forall parameters inputs,
    within R (split_inputs self items parameters inputs).
Proof.
  induction items as [|[key val] rest IH]; intros parameters inputs; simpl.
  - apply within_ret.
  - destruct (in_inputs self key); [|apply IH].
    apply within_bind; [apply R_add|]. intros h. apply IH.
Qed.

Lemma within_add_items items :
  forall index outputs, within R (add_items index items outputs).
Proof.
  induction items as [|item rest IH]; intros index outputs; simpl.
  - apply within_ret.
  - apply within_bind; [apply R_add|]. intros h. apply IH.
Qed.

Lemma within_register_outputs function_output :
  within R (register_outputs function_output).
Proof.
  unfold register_outputs.
  destruct function_output;
    try (apply within_bind; [apply R_add|intros h; apply within_ret]).
  apply within_add_items.
Qed.

(** [wrapped] respects the relation when the decorated function and the
    syntax tree visitor do. *)
Lemma within_wrapped self function args kwargs caller :
  within R (call function args kwargs (wrapped_frame caller)) ->
  (forall tree ins outs, within R (CallAST_visit self tree ins outs)) ->
  within R (wrapped self function args kwargs caller).
Proof.
  intros Hcall Hvisit. unfold wrapped.
  apply within_bind; [apply within_calling_lineno|]. intros lineno.
  apply within_bind; [exact Hcall|]. intros function_output.
  apply within_bind; [apply within_get|]. intros s.
  destruct (active s); [|apply within_ret].
  destruct lineno as [lineno|]; [|apply within_ret].
  apply within_bind.
  { destruct (code_analyzer s); [apply within_lift|apply within_raise]. }
  intros source_line.
  apply within_bind; [apply within_lift|]. intros ast_tree.
  apply within_bind; [apply within_lift|]. intros [input_data names].
  destruct (bind_kwargs kwargs input_data []) as [input_data' knames].
  apply within_bind; [apply within_split_inputs|]. intros [ps ins].
  apply within_bind; [apply within_register_outputs|]. intros outs.
  apply within_bind; [apply Hvisit|]. intros _.
  apply within_bind; [|intros; apply within_ret].
  intros s'. apply R_history.
Qed.

End Within.

(** *** The registry *)

Lemma add_known obj s known :
  objects s !! content_hash obj = Some known ->
  add obj s = (Return known, s).
Proof. unfold add; simpl. now intros ->. Qed.

Lemma add_fresh obj s :
  objects s !! content_hash obj = None ->
  add obj s =
  (Return {| hash_value := content_hash obj; value_of := obj |},
   set_objects (<[content_hash obj :=
                   {| hash_value := content_hash obj; value_of := obj |}]>
                  (objects s)) s).
Proof. unfold add; simpl. now intros ->. Qed.

(** [add] returns, and the identity it returns is the one the registry
    then holds for the hash of the object. *)
Lemma add_returns obj s :
  exists h s1, add obj s = (Return h, s1) /\
               objects s1 !! content_hash obj = Some h.
Proof.
  destruct (objects s !! content_hash obj) as [known|] eqn:E.
  - exists known, s. split; [now apply add_known|exact E].
  - eexists _, _. split; [now apply add_fresh|].
    simpl. apply lookup_insert_eq.
Qed.

Lemma keeps_records_refl s : keeps_records s s.
Proof. unfold keeps_records. reflexivity. Qed.

Lemma keeps_records_trans s1 s2 s3 :
  keeps_records s1 s2 -> keeps_records s2 s3 -> keeps_records s1 s3.
Proof. unfold keeps_records. intros H12 H23. now transitivity (objects s2). Qed.

Lemma add_keeps_records obj : within keeps_records (add obj).
Proof.
  intros s. unfold keeps_records.
  destruct (objects s !! content_hash obj) as [known|] eqn:E.
  - now rewrite (add_known _ _ _ E).
  - rewrite (add_fresh _ _ E). simpl. now apply insert_subseteq.
Qed.

Lemma keeps_wf_refl s : keeps_wf s s.
Proof. now intros Hwf. Qed.

Lemma keeps_wf_trans s1 s2 s3 :
  keeps_wf s1 s2 -> keeps_wf s2 s3 -> keeps_wf s1 s3.
Proof. unfold keeps_wf. auto. Qed.

Lemma add_keeps_wf obj : within keeps_wf (add obj).
Proof.
  intros s Hwf.
  destruct (objects s !! content_hash obj) as [known|] eqn:E.
  - now rewrite (add_known _ _ _ E).
  - rewrite (add_fresh _ _ E). intros k r; simpl.
    rewrite lookup_insert. case_decide as Hk.
    + intros [= <-]. exact Hk.
    + apply Hwf.
Qed.

Lemma add_hash obj s h s1 :
  registry_wf s -> add obj s = (Return h, s1) ->
  hash_value h = content_hash obj.
Proof.
  intros Hwf Hadd.
  destruct (objects s !! content_hash obj) as [known|] eqn:E.
  - rewrite (add_known _ _ _ E) in Hadd. injection Hadd as <- <-.
    now apply Hwf.
  - rewrite (add_fresh _ _ E) in Hadd. now injection Hadd as <- <-.
Qed.

Lemma initial_state_wf : registry_wf initial_state.
Proof. intros k r; simpl. now rewrite lookup_empty. Qed.

(** *** The loops return *)

Lemma bind_args_returns params args :
  forall arg_id input_data names,
    (arg_id + length args <= length params)%nat ->
    exists r, bind_args params arg_id args input_data names = Return r.
Proof.
  induction args as [|arg_val rest IH]; intros arg_id input_data names Hlen;
    simpl in *.
  - eauto.
  - destruct (params !! arg_id) as [arg_name|] eqn:E.
    + apply IH. lia.
    + apply lookup_ge_None in E. lia.
Qed.

Lemma split_inputs_returns self items :
  forall parameters inputs s,
    exists r s', split_inputs self items parameters inputs s = (Return r, s').
Proof.
  induction items as [|[key val] rest IH]; intros parameters inputs s; simpl.
  - unfold ret. eauto.
  - destruct (in_inputs self key); [|apply IH].
    unfold bind. destruct (add_returns val s) as (h & s1 & -> & _).
    apply IH.
Qed.



Lemma add_items_returns items :
  forall index outputs s,
    exists outs s', add_items index items outputs s = (Return outs, s').
Proof.
  induction items as [|item rest IH]; intros index outputs s; simpl.
  - unfold ret. eauto.
  - unfold bind. destruct (add_returns item s) as (h & s1 & -> & _).
    apply IH.
Qed.

Lemma register_outputs_returns function_output s :
  exists outs s', register_outputs function_output s = (Return outs, s').
Proof.
  unfold register_outputs.
  destruct function_output;
    try (unfold bind, ret;
         match goal with
         | |- context [add ?v s] =>
             destruct (add_returns v s) as (h & s1 & -> & _)
         end; eauto).
  apply add_items_returns.
Qed.

(** *** A call that is recorded *)

(** A call from the tracked scope, whose statement resolves and whose
    arguments fit the signature, runs every stage of [wrapped] and ends
    with the step appended to the history. *)
Lemma wrapped_records self function args kwargs caller scope s out s1
      analyzer source_line tree :
  active s = true -> enclosing_scope caller scope -> tracked_scope scope s ->
  call function args kwargs (wrapped_frame caller) s = (Return out, s1) ->
  active s1 = true ->
  code_analyzer s1 = Some analyzer ->
  extract_multiline_statement analyzer (f_lineno scope) = Return source_line ->
  ast_parse source_line = Return tree ->
  (length args <= length (parameters function))%nat ->
  (forall ins outs st,
      fst (CallAST_visit self tree ins outs st) = Return tt) ->
  exists d0 names input_data knames ps ins s2 outs s3 s4,
    bind_args (parameters function) 0 args [] [] = Return (d0, names) /\
    bind_kwargs kwargs d0 [] = (input_data, knames) /\
    split_inputs self input_data [] [] s1 = (Return (ps, ins), s2) /\
    register_outputs out s2 = (Return outs, s3) /\
    CallAST_visit self tree ins outs s3 = (Return tt, s4) /\
    wrapped self function args kwargs caller s =
    (Return out,
     set_history
       (history s4 ++
        [step_of function ins ps outs names knames tree source_line]) s4).
Proof.
  intros Ha Hscope Htracked Hcall Ha1 Han Hst Hparse Hlen Hvisit.
  destruct (bind_args_returns (parameters function) args 0 [] [])
    as [[d0 names] Hb]; [simpl; lia|].
  destruct (bind_kwargs kwargs d0 []) as [input_data knames] eqn:Hk.
  destruct (split_inputs_returns self input_data [] [] s1)
    as ([ps ins] & s2 & Hs).
  destruct (register_outputs_returns out s2) as (outs & s3 & Ho).
  destruct (CallAST_visit self tree ins outs s3) as [r s4] eqn:Hv.
  assert (r = Return tt) as ->.
  { specialize (Hvisit ins outs s3). now rewrite Hv in Hvisit. }
  exists d0, names, input_data, knames, ps, ins, s2, outs, s3, s4.
  repeat (split; [assumption || reflexivity|]).
  unfold wrapped, bind at 1.
  rewrite (calling_lineno_tracked _ _ _ Ha Hscope Htracked).
  unfold bind at 1. rewrite Hcall.
  unfold bind at 1, get. rewrite Ha1.
  unfold bind at 1. rewrite Han. unfold lift at 1. rewrite Hst.
  unfold bind at 1, lift at 1. rewrite Hparse.
  unfold bind at 1, lift at 1. rewrite Hb, Hk.
  unfold bind at 1. rewrite Hs.
  unfold bind at 1. rewrite Ho.
  unfold bind at 1. rewrite Hv.
  reflexivity.
Qed.

(** *** Transparency and scope filtering *)

(** C2. While tracking is inactive, a call of the decorated function is
    the call of the function that [wrapped] makes at line 160: the same
    returned value or the same exception, and the same session afterwards,
    so the wrapper appends nothing to the history. *)
Theorem inactive_call_is_transparent self function args kwargs caller s :
  active s = false ->
  call (__call__ self function) args kwargs caller s =
  call function args kwargs (wrapped_frame caller) s /\
  history (snd (call (__call__ self function) args kwargs caller s)) =
  history (snd (call function args kwargs (wrapped_frame caller) s)).
Proof.
  intros Ha. simpl.
  rewrite (wrapped_without_lineno _ _ _ _ _ _
             (calling_lineno_inactive caller s Ha)).
  split; reflexivity.
Qed.

(** C6. While tracking is active, a call whose scope, found by walking
    outward from the caller through list comprehension frames, is not the
    tracked scope still runs the function and returns what it returns, and
    the history afterwards is the one the function itself left. *)
Theorem call_from_elsewhere_not_recorded
        self function args kwargs caller scope s :
  active s = true ->
  enclosing_scope caller scope ->
  ~ tracked_scope scope s ->
  fst (call (__call__ self function) args kwargs caller s) =
  fst (call function args kwargs (wrapped_frame caller) s) /\
  history (snd (call (__call__ self function) args kwargs caller s)) =
  history (snd (call function args kwargs (wrapped_frame caller) s)) /\
  co_name scope <> "<listcomp>".
Proof.
  intros Ha Hscope Hn. simpl.
  rewrite (wrapped_without_lineno _ _ _ _ _ _
             (calling_lineno_elsewhere caller scope s Ha Hscope Hn)).
  repeat split. now apply (enclosing_scope_named caller).
Qed.

(** C8. An exception raised by the decorated function leaves [wrapped]
    as it is, whether tracking is active or not, with the session as the
    function left it: no step is appended for the call. *)
Theorem function_exception_propagates
        self function args kwargs caller scope s e s1 :
  enclosing_scope caller scope ->
  call function args kwargs (wrapped_frame caller) s = (Raise e, s1) ->
  call (__call__ self function) args kwargs caller s = (Raise e, s1) /\
  history (snd (call (__call__ self function) args kwargs caller s)) =
  history s1.
Proof.
  intros Hscope Hcall. simpl.
  assert (exists lineno, calling_lineno caller s = (Return lineno, s))
    as [lineno Hl].
  { unfold calling_lineno.
    rewrite (skip_listcomp_complete _ _ Hscope).
    destruct (active s); [|eauto].
    match goal with |- context [if ?b then _ else _] => destruct b end;
      eauto. }
  rewrite (wrapped_function_raises _ _ _ _ _ _ _ _ _ Hl Hcall).
  split; reflexivity.
Qed.

(** C9. While tracking is active, a call whose scope is not the tracked
    scope leaves the registry as the function itself left it: the wrapper
    registers no identity for the arguments or the returned values. *)
Theorem call_from_elsewhere_registers_nothing
        self function args kwargs caller scope s :
  active s = true ->
  enclosing_scope caller scope ->
  ~ tracked_scope scope s ->
  objects (snd (call (__call__ self function) args kwargs caller s)) =
  objects (snd (call function args kwargs (wrapped_frame caller) s)).
Proof.
  intros Ha Hscope Hn. simpl.
  now rewrite (wrapped_without_lineno _ _ _ _ _ _
                 (calling_lineno_elsewhere caller scope s Ha Hscope Hn)).
Qed.

(** *** Resolution errors *)

(** C1, as the code has it. In a call from the tracked scope, when the
    statement of the calling line cannot be resolved (the analyzer reports
    an error, or the statement does not parse), the function has run, and
    the error leaves [wrapped] in place of the returned value; the session
    is as the function left it, so nothing is recorded or registered for
    the call. *)
Theorem resolution_error_propagates
        self function args kwargs caller scope s out s1 analyzer e :
  active s = true ->
  enclosing_scope caller scope ->
  tracked_scope scope s ->
  call function args kwargs (wrapped_frame caller) s = (Return out, s1) ->
  active s1 = true ->
  code_analyzer s1 = Some analyzer ->
  (extract_multiline_statement analyzer (f_lineno scope) = Raise e \/
   exists source_line,
     extract_multiline_statement analyzer (f_lineno scope) =
     Return source_line /\ ast_parse source_line = Raise e) ->
  call (__call__ self function) args kwargs caller s = (Raise e, s1).
Proof.
  intros Ha Hscope Htracked Hcall Ha1 Han Hfail. simpl.
  unfold wrapped, bind at 1.
  rewrite (calling_lineno_tracked _ _ _ Ha Hscope Htracked).
  unfold bind at 1. rewrite Hcall.
  unfold bind at 1, get. rewrite Ha1.
  unfold bind at 1. rewrite Han. unfold lift at 1.
  destruct Hfail as [Hst|(source_line & Hst & Hparse)]; rewrite Hst.
  - reflexivity.
  - unfold bind at 1, lift at 1. now rewrite Hparse.
Qed.

(** *** The registry over a session *)

Lemma activate_objects caller s :
  objects (snd (activate caller s)) = objects s.
Proof.
  unfold activate, bind, set_calling_frame.
  destruct (getsourcelines caller) as [lines|e]; [|reflexivity].
  destruct (ast_parse (strip (join lines))); reflexivity.
Qed.

Lemma deactivate_objects s : objects (snd (deactivate s)) = objects s.
Proof. reflexivity. Qed.

Lemma run_keeps_records op s :
  removes_no_record op -> keeps_records s (run op s).
Proof.
  destruct op as [obj|caller| |self function args kwargs caller]; simpl.
  - intros _. apply add_keeps_records.
  - intros _. unfold keeps_records. now rewrite activate_objects.
  - intros _. unfold keeps_records. reflexivity.
  - intros [Hcall Hvisit].
    apply (within_wrapped keeps_records keeps_records_refl
             keeps_records_trans add_keeps_records); auto.
    intros h s'. unfold keeps_records. reflexivity.
Qed.

Lemma registry_wf_objects s s' :
  objects s' = objects s -> registry_wf s -> registry_wf s'.
Proof. unfold registry_wf. now intros ->. Qed.

Lemma run_keeps_wf op s : respects keeps_wf op -> keeps_wf s (run op s).
Proof.
  destruct op as [obj|caller| |self function args kwargs caller]; simpl.
  - intros _. apply add_keeps_wf.
  - intros _ Hwf. eapply registry_wf_objects; [|exact Hwf].
    apply activate_objects.
  - intros _ Hwf. exact Hwf.
  - intros [Hcall Hvisit].
    apply (within_wrapped keeps_wf keeps_wf_refl keeps_wf_trans
             add_keeps_wf); auto.
    intros h s' Hwf. exact Hwf.
Qed.

(** Over a session the registry stays keyed by the hashes of its
    records. *)
Lemma session_registry_wf ops :
  Forall (respects keeps_wf) ops -> registry_wf (run_all ops initial_state).
Proof.
  intros Hops. generalize initial_state_wf. generalize initial_state.
  induction Hops as [|op ops Hop _ IH]; intros s Hwf; simpl; [exact Hwf|].
  apply IH. now apply run_keeps_wf.
Qed.

(** C3, as the code has it. A record of the registry stays in it, with
    the same identity, through every operation of a session, and neither
    [deactivate] nor a new [activate] resets the registry: both leave it
    as it is. *)
Theorem registry_records_persist ops s :
  Forall removes_no_record ops ->
  objects s ⊆ objects (run_all ops s) /\
  objects (snd (deactivate s)) = objects s /\
  forall caller, objects (snd (activate caller s)) = objects s.
Proof.
  intros Hops. split; [|split].
  - revert s. induction Hops as [|op ops Hop _ IH]; intros s; simpl.
    + reflexivity.
    + transitivity (objects (run op s)); [|apply IH].
      now apply run_keeps_records.
  - apply deactivate_objects.
  - intros caller. apply activate_objects.
Qed.

(** C4. Registering an object returns the identity that the registry
    then holds under the object's hash: the record already there when
    the hash is known, with nothing changed, and otherwise a new record
    of the object itself, stored under that hash beside the others.
    Registering again the object, or any object of the same hash,
    returns that same identity and changes nothing; and the registry
    keeps one record per hash. *)
Theorem add_twice_same_identity obj s :
  registry_wf s ->
  exists h s1,
    add obj s = (Return h, s1) /\
    objects s1 !! content_hash obj = Some h /\
    hash_value h = content_hash obj /\
    (forall known, objects s !! content_hash obj = Some known ->
                   h = known /\ s1 = s) /\
    (objects s !! content_hash obj = None ->
     h = {| hash_value := content_hash obj; value_of := obj |} /\
     objects s1 = <[content_hash obj := h]> (objects s)) /\
    (forall k, k <> content_hash obj ->
               objects s1 !! k = objects s !! k) /\
    add obj s1 = (Return h, s1) /\
    (forall obj', content_hash obj' = content_hash obj ->
                  add obj' s1 = (Return h, s1)) /\
    registry_wf s1 /\
    (forall k1 k2 r1 r2,
        objects s1 !! k1 = Some r1 -> objects s1 !! k2 = Some r2 ->
        hash_value r1 = hash_value r2 -> k1 = k2 /\ r1 = r2).
Proof.
  intros Hwf.
  destruct (add_returns obj s) as (h & s1 & Hadd & Hin).
  assert (registry_wf s1) as Hwf1.
  { pose proof (add_keeps_wf obj s Hwf) as Hk. now rewrite Hadd in Hk. }
  exists h, s1.
  split; [exact Hadd|].
  split; [exact Hin|].
  split; [exact (add_hash _ _ _ _ Hwf Hadd)|].
  split.
  { intros known Hknown. rewrite (add_known _ _ _ Hknown) in Hadd.
    injection Hadd as <- <-. now split. }
  split.
  { intros Hnew. rewrite (add_fresh _ _ Hnew) in Hadd.
    injection Hadd as <- <-. now split. }
  split.
  { intros k Hk.
    destruct (objects s !! content_hash obj) as [known|] eqn:E.
    - rewrite (add_known _ _ _ E) in Hadd. now injection Hadd as _ <-.
    - rewrite (add_fresh _ _ E) in Hadd. injection Hadd as _ <-.
      simpl. now apply lookup_insert_ne. }
  split; [now apply add_known|].
  split; [intros obj' Heq; apply add_known; now rewrite Heq|].
  split; [exact Hwf1|].
  intros k1 k2 r1 r2 H1 H2 Heq.
  pose proof (Hwf1 _ _ H1) as E1. pose proof (Hwf1 _ _ H2) as E2.
  assert (k1 = k2) as -> by congruence.
  split; congruence.
Qed.

(** *** What a recorded step holds *)



(** C10. The decorated callable carries the name, the module and the
    docstring of the function it wraps, and the step recorded for a call
    names the function by its own name and module. *)
Theorem recorded_function_is_original
        self (f : callable) args kwargs caller scope s out s1
        analyzer source_line tree :
  active s = true -> enclosing_scope caller scope -> tracked_scope scope s ->
  call f args kwargs (wrapped_frame caller) s = (Return out, s1) ->
  active s1 = true ->
  code_analyzer s1 = Some analyzer ->
  extract_multiline_statement analyzer (f_lineno scope) = Return source_line ->
  ast_parse source_line = Return tree ->
  (length args <= length (parameters f))%nat ->
  (forall ins outs st,
      fst (CallAST_visit self tree ins outs st) = Return tt) ->
  __name__ (__call__ self f) = __name__ f /\
  __module__ (__call__ self f) = __module__ f /\
  __doc__ (__call__ self f) = __doc__ f /\
  exists s' step,
    call (__call__ self f) args kwargs caller s = (Return out, s') /\
    last (history s') = Some step /\
    function step =
    {| name := __name__ f; module := __module__ f; version := None |}.
Proof.
  intros Ha Hscope Htracked Hcall Ha1 Han Hst Hparse Hlen Hvisit.
  do 3 (split; [reflexivity|]).
  destruct (wrapped_records self f args kwargs caller scope s out s1
              analyzer source_line tree)
    as (d0 & names & input_data & knames & ps & ins & s2 & outs & s3 & s4 &
        _ & _ & _ & _ & _ & Hw); try assumption.
  eexists _, _. split; [exact Hw|].
  split; [simpl; apply last_snoc|]. reflexivity.
Qed.

End Properties.

(** ** The extension check of [save_graph] *)

Ltac by_all_characters :=
  intros c; destruct c as [[] [] [] [] [] [] [] []]; reflexivity.

Lemma lower_exact_dot : lower_exact ".".
Proof. by_all_characters. Qed.

Lemma lower_exact_h : lower_exact "h".
Proof. by_all_characters. Qed.

Lemma lower_exact_t : lower_exact "t".
Proof. by_all_characters. Qed.

Lemma lower_exact_m : lower_exact "m".
Proof. by_all_characters. Qed.

Lemma lower_exact_l : lower_exact "l".
Proof. by_all_characters. Qed.

Lemma eqb_lower_nocase target :
  all_lower_exact target ->
  forall ext, String.eqb (lower ext) target = eq_nocase ext target.
Proof.
  induction target as [|t target IH]; intros Hall [|c ext]; simpl;
    try reflexivity.
  destruct Hall as [Ht Hall]. now rewrite Ht, IH.
Qed.

Lemma lower_in_html ext :
  str_in (lower ext) [".html"; ".htm"] = html_extension ext.
Proof.
  unfold str_in, html_extension; simpl.
  rewrite !eqb_lower_nocase, orb_false_r; [reflexivity| |]; simpl;
    repeat split;
    auto using lower_exact_dot, lower_exact_h, lower_exact_t,
               lower_exact_m, lower_exact_l.
Qed.

Section GraphExport.

Context `{Analysis}.

(** C7. [save_graph] raises [ValueError] and leaves the file system as it
    is when the extension of the path is not [.html] or [.htm] up to case;
    otherwise it adds every step of the history, in order, to a new graph
    and hands the graph and the path to [to_pyvis]. *)
Theorem save_graph_checks_extension filename show s w :
  (html_extension (snd (splitext filename)) = false ->
   save_graph filename show s w =
   (Raise (ValueError "Filename must have HTML extension (.html, .htm)!"),
    w)) /\
  (html_extension (snd (splitext filename)) = true ->
   save_graph filename show s w =
   to_pyvis (fold_left add_step (history s) BuffaloProvenanceGraph)
            filename show w).
Proof.
  unfold save_graph, Provenance_save_graph.
  destruct (splitext filename) as [name ext]; cbn [snd].
  rewrite lower_in_html.
  split; intros ->; reflexivity.
Qed.

End GraphExport.

(** ** More on the operations *)

Section SessionProperties.

Context `{Analysis}.

(** *** Activation *)

Lemma activate_returns fr lines tree s :
  getsourcelines fr = Return lines ->
  ast_parse (strip (join lines)) = Return tree ->
  activate fr s =
  (Return tt,
   {| active := true; history := history s; objects := objects s;
      calling_frame := Some fr; source_code := Some lines;
      source_lineno :=
        Some (if String.eqb (co_name fr) "<module>" then 1 else f_lineno fr);
      source_file := Some (co_filename fr);
      source_name := Some (co_name fr);
      code_analyzer :=
        Some (SourceCodeAnalyzer
                lines
                (if String.eqb (co_name fr) "<module>" then 1
                 else f_lineno fr)
                (co_name fr));
      frame_ast := Some tree |}).
Proof.
  intros Hl Hp. unfold activate, bind, set_calling_frame.
  now rewrite Hl, Hp.
Qed.

Lemma activate_history caller s :
  history (snd (activate caller s)) = history s.
Proof.
  unfold activate, bind, set_calling_frame.
  destruct (getsourcelines caller) as [lines|e]; [|reflexivity].
  destruct (ast_parse (strip (join lines))); reflexivity.
Qed.

Lemma calling_lineno_returns caller scope s :
  enclosing_scope caller scope ->
  exists lineno, calling_lineno caller s = (Return lineno, s).
Proof.
  intros Hscope. unfold calling_lineno.
  rewrite (skip_listcomp_complete _ _ Hscope).
  destruct (active s); [|eauto].
  match goal with |- context [if ?b then _ else _] => destruct b end; eauto.
Qed.

(** X1. When the source of the activating frame can be read and parsed,
    [activate] returns with tracking on, the history and the registry as
    they were, and the analyzer built from that source; afterwards a call
    is in scope exactly when its scope has the file and the function name
    of the activating frame, whatever its line. *)
Theorem activation_binds_scope fr lines tree s caller scope :
  getsourcelines fr = Return lines ->
  ast_parse (strip (join lines)) = Return tree ->
  enclosing_scope caller scope ->
  fst (activate fr s) = Return tt /\
  active (snd (activate fr s)) = true /\
  history (snd (activate fr s)) = history s /\
  objects (snd (activate fr s)) = objects s /\
  code_analyzer (snd (activate fr s)) =
  Some (SourceCodeAnalyzer
          lines
          (if String.eqb (co_name fr) "<module>" then 1 else f_lineno fr)
          (co_name fr)) /\
  calling_lineno caller (snd (activate fr s)) =
  (Return (if String.eqb (co_filename scope) (co_filename fr) &&
              String.eqb (co_name scope) (co_name fr)
           then Some (f_lineno scope) else None),
   snd (activate fr s)).
Proof.
  intros Hl Hp Hscope. rewrite (activate_returns _ _ _ _ Hl Hp); simpl.
  repeat (split; [reflexivity|]).
  unfold calling_lineno; simpl.
  rewrite (skip_listcomp_complete _ _ Hscope).
  now destruct (String.eqb (co_filename scope) (co_filename fr) &&
                String.eqb (co_name scope) (co_name fr)).
Qed.

(** X2. When the source of the activating frame cannot be read, or does
    not parse, [activate] raises that error and the tracking flag, the
    history, the registry and the analyzer are as before; the file and the
    function name of the tracked scope are nevertheless already those of
    the new frame. *)
Theorem failed_activation_keeps_flag fr e s :
  (getsourcelines fr = Raise e \/
   exists lines, getsourcelines fr = Return lines /\
                 ast_parse (strip (join lines)) = Raise e) ->
  fst (activate fr s) = Raise e /\
  active (snd (activate fr s)) = active s /\
  history (snd (activate fr s)) = history s /\
  objects (snd (activate fr s)) = objects s /\
  code_analyzer (snd (activate fr s)) = code_analyzer s /\
  source_file (snd (activate fr s)) = Some (co_filename fr) /\
  source_name (snd (activate fr s)) = Some (co_name fr).
Proof.
  unfold activate, bind, set_calling_frame.
  intros [Hl|(lines & Hl & Hp)]; rewrite Hl; [|rewrite Hp]; simpl;
    repeat split.
Qed.

(** X3. A successful activation replaces whatever an earlier activation,
    successful or not, had bound: activating from [fr1] and then from
    [fr2] leaves the session as activating from [fr2] alone. *)
Theorem activation_overrides_earlier fr1 fr2 lines tree s :
  getsourcelines fr2 = Return lines ->
  ast_parse (strip (join lines)) = Return tree ->
  snd (activate fr2 (snd (activate fr1 s))) = snd (activate fr2 s).
Proof.
  intros Hl Hp. rewrite !(activate_returns _ _ _ _ Hl Hp); simpl.
  now rewrite activate_history, activate_objects.
Qed.

(** X4. [deactivate] switches tracking off and leaves the history, the
    registry and the bound scope as they are: afterwards every decorated
    call is the plain call of the function, and [save_graph] exports the
    same history as before. *)
Theorem deactivation_stops_recording s :
  fst (deactivate s) = Return tt /\
  active (snd (deactivate s)) = false /\
  history (snd (deactivate s)) = history s /\
  objects (snd (deactivate s)) = objects s /\
  source_file (snd (deactivate s)) = source_file s /\
  source_name (snd (deactivate s)) = source_name s /\
  code_analyzer (snd (deactivate s)) = code_analyzer s /\
  (forall self f args kwargs caller,
      call (__call__ self f) args kwargs caller (snd (deactivate s)) =
      call f args kwargs (wrapped_frame caller) (snd (deactivate s))) /\
  (forall filename show,
      save_graph filename show (snd (deactivate s)) =
      save_graph filename show s).
Proof.
  repeat (split; [reflexivity|]). split; [|reflexivity].
  intros self f args kwargs caller. simpl.
  apply wrapped_without_lineno. now apply calling_lineno_inactive.
Qed.

(** X5. A call whose function returns with tracking switched off is not
    recorded, even when it was made from the tracked scope with tracking
    on: the flag is read again after the function has run. *)
Theorem call_ending_inactive_not_recorded
        self f args kwargs caller scope s out s1 :
  enclosing_scope caller scope ->
  call f args kwargs (wrapped_frame caller) s = (Return out, s1) ->
  active s1 = false ->
  call (__call__ self f) args kwargs caller s = (Return out, s1).
Proof.
  intros Hscope Hcall Ha1. simpl.
  destruct (calling_lineno_returns caller scope s Hscope) as [lineno Hl].
  unfold wrapped, bind at 1. rewrite Hl.
  unfold bind at 1. rewrite Hcall.
  unfold bind at 1, get. now rewrite Ha1.
Qed.

(** *** The registry, key by key *)

Lemma same_binding_refl s : same_binding s s.
Proof. repeat split. Qed.

Lemma same_binding_trans s1 s2 s3 :
  same_binding s1 s2 -> same_binding s2 s3 -> same_binding s1 s3.
Proof.
  unfold same_binding.
  intros (A1 & A2 & A3 & A4 & A5 & A6 & A7 & A8)
         (B1 & B2 & B3 & B4 & B5 & B6 & B7 & B8).
  repeat split; congruence.
Qed.

Lemma add_same_binding obj : within same_binding (add obj).
Proof.
  intros s. unfold add; simpl.
  destruct (objects s !! content_hash obj); repeat split.
Qed.

Lemma add_same_history obj : within same_history (add obj).
Proof.
  intros s. unfold add, same_history; simpl.
  now destruct (objects s !! content_hash obj).
Qed.

(** X6. [add] changes nothing of the session but the registry, and there
    only the key of the object's hash: every other key keeps its lookup,
    a known hash leaves the registry as it is, and a new hash makes it one
    record larger. *)
Theorem add_touches_one_key obj s :
  same_binding s (snd (add obj s)) /\
  history (snd (add obj s)) = history s /\
  (forall k, k <> content_hash obj ->
             objects (snd (add obj s)) !! k = objects s !! k) /\
  (is_Some (objects s !! content_hash obj) ->
   objects (snd (add obj s)) = objects s) /\
  (objects s !! content_hash obj = None ->
   size (objects (snd (add obj s))) = S (size (objects s))).
Proof.
  split; [apply add_same_binding|].
  split; [apply add_same_history|].
  destruct (objects s !! content_hash obj) as [known|] eqn:E.
  - rewrite (add_known _ _ _ E); simpl.
    split; [reflexivity|]. split; [reflexivity|discriminate].
  - rewrite (add_fresh _ _ E); simpl.
    split; [intros k Hk; now apply lookup_insert_ne|].
    split; [intros [x Hx]; discriminate|].
    intros _. now apply map_size_insert_None.
Qed.

(** X7. Two objects of the same hash are one identity: when the first is
    registered under a new hash, registering the second returns the
    identity of the first, which still refers to the first object, and
    stores nothing. *)
Theorem same_hash_same_identity a b s :
  content_hash b = content_hash a ->
  objects s !! content_hash a = None ->
  exists h s1,
    add a s = (Return h, s1) /\
    add b s1 = (Return h, s1) /\
    value_of h = a /\ hash_value h = content_hash b.
Proof.
  intros Hab Hnew. eexists _, _.
  split; [now apply add_fresh|].
  split; [|split; [reflexivity|now rewrite Hab]].
  apply add_known. rewrite Hab. simpl. apply lookup_insert_eq.
Qed.

(** *** Variables of the script *)

Section Locals.

Variable f_locals : frame -> list (string * value).

(** X8. After a successful activation from a frame,
    [add_script_variable] looks the name up in the local variables of
    that frame: a name that is not bound raises [KeyError] and leaves the
    session as it is; a bound name returns its value with the identity
    that the registry then holds for it, and nothing else changes.  In
    the initial session, never activated, it raises [AttributeError]. *)
Theorem script_variable_after_activation fr lines tree s name :
  getsourcelines fr = Return lines ->
  ast_parse (strip (join lines)) = Return tree ->
  (dict_get String.eqb (f_locals fr) name = None ->
   add_script_variable f_locals name (snd (activate fr s)) =
   (Raise (KeyError name), snd (activate fr s))) /\
  (forall v,
      dict_get String.eqb (f_locals fr) name = Some v ->
      exists h s',
        add_script_variable f_locals name (snd (activate fr s)) =
        (Return (v, h), s') /\
        objects s' !! content_hash v = Some h /\
        objects s ⊆ objects s' /\
        history s' = history s /\
        same_binding (snd (activate fr s)) s') /\
  add_script_variable f_locals name initial_state =
  (Raise (AttributeError "'NoneType' object has no attribute 'f_locals'"),
   initial_state).
Proof.
  intros Hl Hp.
  assert (calling_frame (snd (activate fr s)) = Some fr) as Hfr
      by now rewrite (activate_returns _ _ _ _ Hl Hp).
  split; [|split; [|reflexivity]].
  - intros Hnone. unfold add_script_variable. now rewrite Hfr, Hnone.
  - intros v Hv. unfold add_script_variable. rewrite Hfr, Hv.
    unfold bind, ret.
    destruct (add_returns v (snd (activate fr s))) as (h & s' & Hadd & Hin).
    rewrite Hadd. exists h, s'. split; [reflexivity|].
    split; [exact Hin|].
    pose proof (add_keeps_records v (snd (activate fr s))) as Hk.
    pose proof (add_same_history v (snd (activate fr s))) as Hh.
    pose proof (add_same_binding v (snd (activate fr s))) as Hb.
    rewrite Hadd in Hk, Hh, Hb. simpl in *.
    unfold keeps_records in Hk. rewrite activate_objects in Hk.
    unfold same_history in Hh. rewrite activate_history in Hh.
    auto.
Qed.

End Locals.

(** *** What a call leaves alone *)

Lemma history_grows_refl s : history_grows s s.
Proof. unfold history_grows. reflexivity. Qed.

Lemma history_grows_trans s1 s2 s3 :
  history_grows s1 s2 -> history_grows s2 s3 -> history_grows s1 s3.
Proof. unfold history_grows. intros H12 H23. now transitivity (history s2). Qed.

Lemma same_history_refl s : same_history s s.
Proof. reflexivity. Qed.

Lemma same_history_trans s1 s2 s3 :
  same_history s1 s2 -> same_history s2 s3 -> same_history s1 s3.
Proof. unfold same_history. congruence. Qed.

Lemma add_history_grows obj : within history_grows (add obj).
Proof.
  intros s. unfold history_grows. now rewrite add_same_history.
Qed.

Section WithinAppend.

Variable R : State -> State -> Prop.
Hypothesis R_refl : forall s, R s s.
Hypothesis R_trans : forall s1 s2 s3, R s1 s2 -> R s2 s3 -> R s1 s3.
Hypothesis R_add : forall obj, within R (add obj).
Hypothesis R_append :
  forall step s, R s (set_history (history s ++ [step]) s).

(** [wrapped] respects a relation that appending a step respects, when
    the decorated function and the syntax tree visitor do. *)
Lemma within_wrapped_append self function args kwargs caller :
  within R (call function args kwargs (wrapped_frame caller)) ->
  (forall tree ins outs, within R (CallAST_visit self tree ins outs)) ->
  within R (wrapped self function args kwargs caller).
Proof.
  intros Hcall Hvisit. unfold wrapped.
  apply (within_bind R R_trans); [apply (within_calling_lineno R R_refl)|].
  intros lineno.
  apply (within_bind R R_trans); [exact Hcall|]. intros function_output.
  apply (within_bind R R_trans); [apply (within_get R R_refl)|]. intros s.
  destruct (active s); [|apply (within_ret R R_refl)].
  destruct lineno as [lineno|]; [|apply (within_ret R R_refl)].
  apply (within_bind R R_trans).
  { destruct (code_analyzer s);
      [apply (within_lift R R_refl)|apply (within_raise R R_refl)]. }
  intros source_line.
  apply (within_bind R R_trans); [apply (within_lift R R_refl)|].
  intros ast_tree.
  apply (within_bind R R_trans); [apply (within_lift R R_refl)|].
  intros [input_data names].
  destruct (bind_kwargs kwargs input_data []) as [input_data' knames].
  apply (within_bind R R_trans);
    [apply (within_split_inputs R R_refl R_trans R_add)|].
  intros [ps ins].
  apply (within_bind R R_trans);
    [apply (within_register_outputs R R_refl R_trans R_add)|].
  intros outs.
  apply (within_bind R R_trans); [apply Hvisit|]. intros _.
  apply (within_bind R R_trans); [|intros; apply (within_ret R R_refl)].
  intros s'. apply R_append.
Qed.

End WithinAppend.

Lemma run_history_grows op s :
  respects history_grows op -> history_grows s (run op s).
Proof.
  destruct op as [obj|caller| |self function args kwargs caller]; simpl.
  - intros _. apply add_history_grows.
  - intros _. unfold history_grows. now rewrite activate_history.
  - intros _. unfold history_grows. reflexivity.
  - intros [Hcall Hvisit].
    apply (within_wrapped_append history_grows history_grows_refl
             history_grows_trans add_history_grows); auto.
    intros step s'. unfold history_grows; simpl. now apply prefix_app_r.
Qed.

(** X9. The history is append-only: over any sequence of registrations,
    activations, deactivations and decorated calls, the history at the
    start is a prefix of the history at the end, provided the decorated
    functions and the syntax tree visitor themselves only append. *)
Theorem history_is_append_only ops s :
  Forall (respects history_grows) ops ->
  history s `prefix_of` history (run_all ops s).
Proof.
  intros Hops. revert s.
  induction Hops as [|op ops Hop _ IH]; intros s; simpl; [reflexivity|].
  transitivity (history (run op s)); [|apply IH].
  now apply run_history_grows.
Qed.

(** X10. A decorated call never switches tracking on or off and never
    rebinds the tracked scope, its source or its analyzer, whether it is
    recorded, skipped or ends in an exception, provided the function and
    the visitor do not. *)
Theorem wrapper_leaves_binding self f args kwargs caller s :
  within same_binding (call f args kwargs (wrapped_frame caller)) ->
  (forall tree ins outs,
      within same_binding (CallAST_visit self tree ins outs)) ->
  same_binding s (snd (call (__call__ self f) args kwargs caller s)).
Proof.
  intros Hcall Hvisit. simpl.
  apply (within_wrapped same_binding same_binding_refl same_binding_trans
           add_same_binding); auto.
  intros h s'. repeat split.
Qed.

(** *** Binding the arguments *)

Lemma dict_get_set {V} (d : list (string * V)) k v k' :
  dict_get String.eqb (dict_set String.eqb d k v) k' =
  if String.eqb k' k then Some v else dict_get String.eqb d k'.
Proof.
  induction d as [|[k0 v0] d IH]; simpl; [reflexivity|].
  destruct (String.eqb_spec k k0) as [->|Hk]; simpl.
  - now destruct (String.eqb k' k0).
  - rewrite IH. destruct (String.eqb_spec k' k0) as [->|Hk'];
      [|reflexivity].
    apply String.eqb_neq in Hk. rewrite String.eqb_sym in Hk.
    now rewrite Hk.
Qed.

Lemma dict_get_None {V} (d : list (string * V)) k :
  k ∉ map fst d -> dict_get String.eqb d k = None.
Proof.
  induction d as [|[k0 v0] d IH]; simpl; [reflexivity|].
  intros Hk. apply not_elem_of_cons in Hk as [Hne Hk].
  apply String.eqb_neq in Hne. rewrite Hne. now apply IH.
Qed.

Lemma dict_set_keys {V} (d : list (string * V)) k v :
  map fst (dict_set String.eqb d k v) =
  if decide (k ∈ map fst d) then map fst d else (map fst d ++ [k])%list.
Proof.
  induction d as [|[k0 v0] d IH].
  - destruct (decide (k ∈ map fst (@nil (string * V)))) as [Hin|Hin];
      [|reflexivity].
    now apply elem_of_nil in Hin.
  - cbn [dict_set map fst].
    destruct (String.eqb_spec k k0) as [->|Hk]; cbn [map fst].
    + destruct (decide (k0 ∈ k0 :: map fst d)) as [Hin|Hin]; [reflexivity|].
      exfalso. apply Hin, elem_of_cons. now left.
    + rewrite IH.
      destruct (decide (k ∈ map fst d)) as [Hin|Hin];
        destruct (decide (k ∈ k0 :: map fst d)) as [Hin'|Hin'];
        try reflexivity.
      * exfalso. apply Hin', elem_of_cons. now right.
      * exfalso. apply elem_of_cons in Hin' as [?|?]; contradiction.
Qed.

Lemma dict_set_NoDup {V} (d : list (string * V)) k v :
  NoDup (map fst d) -> NoDup (map fst (dict_set String.eqb d k v)).
Proof.
  intros Hd. rewrite dict_set_keys.
  destruct (decide (k ∈ map fst d)) as [Hin|Hin]; [exact Hd|].
  apply NoDup_app. split; [exact Hd|]. split.
  - intros x Hx Hx'. apply list_elem_of_singleton in Hx'. now subst.
  - apply NoDup_singleton.
Qed.

(** The positional arguments fit the signature: each is bound under the
    parameter name at its position.  They do not: [IndexError]. *)
Lemma bind_args_spec params args :
  forall arg_id input_data names,
    (arg_id <= length params)%nat ->
    if decide (arg_id + length args <= length params)%nat then
      exists d,
        bind_args params arg_id args input_data names =
        Return (d, (names ++ take (length args) (drop arg_id params))%list) /\
        (NoDup (map fst input_data) -> NoDup (map fst d)) /\
        (forall key,
            key ∉ take (length args) (drop arg_id params) ->
            dict_get String.eqb d key = dict_get String.eqb input_data key) /\
        (NoDup params ->
         forall i key v,
           params !! (arg_id + i)%nat = Some key -> args !! i = Some v ->
           dict_get String.eqb d key = Some v)
    else
      bind_args params arg_id args input_data names =
      Raise (IndexError "tuple index out of range").
Proof.
  induction args as [|arg_val rest IH]; intros arg_id input_data names Hid;
    simpl.
  - rewrite decide_True by lia. exists input_data.
    rewrite app_nil_r. repeat split; auto.
    intros _ i key v _ Hi. now rewrite lookup_nil in Hi.
  - destruct (params !! arg_id) as [arg_name|] eqn:E.
    + pose proof (lookup_lt_Some _ _ _ E) as Hlt.
      specialize (IH (S arg_id)
                     (dict_set String.eqb input_data arg_name arg_val)
                     (names ++ [arg_name])%list ltac:(lia)).
      destruct (decide (S arg_id + length rest <= length params)%nat)
        as [Hfit|Hfit].
      * rewrite decide_True by lia.
        destruct IH as (d & -> & Hnd & Hother & Hpos).
        exists d. rewrite (drop_S _ _ _ E); simpl.
        rewrite <- app_assoc; simpl.
        split; [reflexivity|].
        split; [intros Hd; apply Hnd; now apply dict_set_NoDup|].
        split.
        -- intros key Hkey. apply not_elem_of_cons in Hkey as [Hne Hkey].
           rewrite (Hother key Hkey), dict_get_set.
           apply String.eqb_neq in Hne. now rewrite Hne.
        -- intros Hnodup i key v Hk Hv. destruct i as [|i]; simpl in Hv.
           ++ injection Hv as ->. rewrite Nat.add_0_r, E in Hk.
              injection Hk as ->.
              rewrite Hother, dict_get_set, String.eqb_refl; [reflexivity|].
              intros Hin. apply elem_of_take in Hin as (j & Hj & _).
              rewrite lookup_drop in Hj.
              pose proof (NoDup_lookup _ _ _ _ Hnodup E Hj). lia.
           ++ apply (Hpos Hnodup i key v); [|exact Hv].
              now replace (S arg_id + i)%nat with (arg_id + S i)%nat by lia.
      * rewrite decide_False by lia. exact IH.
    + apply lookup_ge_None in E. rewrite decide_False by lia. reflexivity.
Qed.

(** The keyword arguments are bound under their own names, in the order
    they are written, over what is bound already. *)
Lemma bind_kwargs_spec kwargs :
  forall input_data names,
    NoDup (map fst kwargs) ->
    exists d,
      bind_kwargs kwargs input_data names =
      (d, (names ++ map fst kwargs)%list) /\
      (NoDup (map fst input_data) -> NoDup (map fst d)) /\
      forall key,
        dict_get String.eqb d key =
        match dict_get String.eqb kwargs key with
        | Some v => Some v
        | None => dict_get String.eqb input_data key
        end.
Proof.
  induction kwargs as [|[k v] rest IH]; intros input_data names Hnd; simpl.
  - exists input_data. rewrite app_nil_r. auto.
  - apply NoDup_cons in Hnd as [Hk Hnd].
    destruct (IH (dict_set String.eqb input_data k v)
                 (names ++ [k])%list Hnd) as (d & -> & Hd & Hget).
    exists d. rewrite <- app_assoc; simpl.
    split; [reflexivity|].
    split; [intros Hi; apply Hd; now apply dict_set_NoDup|].
    intros key. rewrite Hget, dict_get_set.
    destruct (String.eqb_spec key k) as [->|Hne]; [|reflexivity].
    now rewrite (dict_get_None rest k Hk).
Qed.

Lemma bind_kwargs_names kwargs :
  forall input_data names,
    snd (bind_kwargs kwargs input_data names) =
    (names ++ map fst kwargs)%list /\
    (NoDup (map fst input_data) ->
     NoDup (map fst (fst (bind_kwargs kwargs input_data names)))).
Proof.
  induction kwargs as [|[k v] rest IH]; intros input_data names; simpl.
  - now rewrite app_nil_r.
  - destruct (IH (dict_set String.eqb input_data k v)
                 (names ++ [k])%list) as [-> Hnd].
    rewrite <- app_assoc. split; [reflexivity|].
    intros Hd. apply Hnd. now apply dict_set_NoDup.
Qed.

(** X11. In a call from the tracked scope whose statement resolves, more
    positional arguments than the signature has names (as for a function
    taking [*args]) make the decorated call raise [IndexError] after the
    function has run: its returned value is lost and nothing is
    recorded. *)
Theorem too_many_positional_arguments
        self f args kwargs caller scope s out s1 analyzer source_line tree :
  active s = true -> enclosing_scope caller scope -> tracked_scope scope s ->
  call f args kwargs (wrapped_frame caller) s = (Return out, s1) ->
  active s1 = true ->
  code_analyzer s1 = Some analyzer ->
  extract_multiline_statement analyzer (f_lineno scope) = Return source_line ->
  ast_parse source_line = Return tree ->
  (length (parameters f) < length args)%nat ->
  call (__call__ self f) args kwargs caller s =
  (Raise (IndexError "tuple index out of range"), s1).
Proof.
  intros Ha Hscope Htracked Hcall Ha1 Han Hst Hparse Hlen. simpl.
  pose proof (bind_args_spec (parameters f) args 0 [] [] ltac:(lia)) as Hb.
  rewrite decide_False in Hb by (simpl; lia).
  unfold wrapped, bind at 1.
  rewrite (calling_lineno_tracked _ _ _ Ha Hscope Htracked).
  unfold bind at 1. rewrite Hcall.
  unfold bind at 1, get. rewrite Ha1.
  unfold bind at 1. rewrite Han. unfold lift at 1. rewrite Hst.
  unfold bind at 1, lift at 1. rewrite Hparse.
  unfold bind at 1, lift at 1. now rewrite Hb.
Qed.

(** X12. A recorded call appends exactly one step, at the end of the
    history, when the function and the visitor leave the history alone;
    the step carries the resolved statement and its tree, the names of
    the parameters that the positional arguments fill, and the names of
    the keyword arguments in the order they were written. *)
Theorem recorded_call_appends_one_step
        self f args kwargs caller scope s out s1 analyzer source_line tree :
  active s = true -> enclosing_scope caller scope -> tracked_scope scope s ->
  call f args kwargs (wrapped_frame caller) s = (Return out, s1) ->
  active s1 = true ->
  code_analyzer s1 = Some analyzer ->
  extract_multiline_statement analyzer (f_lineno scope) = Return source_line ->
  ast_parse source_line = Return tree ->
  (length args <= length (parameters f))%nat ->
  (forall ins outs st,
      fst (CallAST_visit self tree ins outs st) = Return tt) ->
  same_history s s1 ->
  (forall ins outs, within same_history (CallAST_visit self tree ins outs)) ->
  exists s' step,
    call (__call__ self f) args kwargs caller s = (Return out, s') /\
    history s' = (history s ++ [step])%list /\
    code_statement step = source_line /\
    call_ast step = tree /\
    arg_map step = take (length args) (parameters f) /\
    kwarg_map step = map fst kwargs.
Proof.
  intros Ha Hscope Htracked Hcall Ha1 Han Hst Hparse Hlen Hvisit Hh1 Hhv.
  destruct (wrapped_records self f args kwargs caller scope s out s1
              analyzer source_line tree)
    as (d0 & names & input_data & knames & ps & ins & s2 & outs & s3 & s4 &
        Hb & Hk & Hsplit & Hout & Hv & Hw); try assumption.
  eexists _, _. split; [exact Hw|]. simpl.
  pose proof (within_split_inputs same_history same_history_refl
                same_history_trans add_same_history
                self input_data [] [] s1) as H2.
  pose proof (within_register_outputs same_history same_history_refl
                same_history_trans add_same_history out s2) as H3.
  pose proof (Hhv ins outs s3) as H4.
  rewrite Hsplit in H2. rewrite Hout in H3. rewrite Hv in H4.
  unfold same_history in *; simpl in *.
  split; [now rewrite H4, H3, H2, Hh1|].
  do 2 (split; [reflexivity|]).
  pose proof (bind_args_spec (parameters f) args 0 [] [] ltac:(lia)) as Hb'.
  rewrite decide_True in Hb' by (simpl; lia).
  destruct Hb' as (d & Hb' & _). rewrite Hb in Hb'.
  injection Hb' as _ ->. rewrite drop_0.
  split; [reflexivity|].
  pose proof (proj1 (bind_kwargs_names kwargs d0 [])) as Hn.
  now rewrite Hk in Hn.
Qed.

(** X13. The arguments are bound by name: every keyword argument under
    its own name, every positional argument under the parameter name at
    its position unless a keyword of that name is given too, each name
    once, and no other name. *)
Theorem arguments_bound_by_name f args kwargs :
  NoDup (parameters f) ->
  NoDup (map fst kwargs) ->
  (length args <= length (parameters f))%nat ->
  exists input_data,
    bound_arguments f args kwargs = Return input_data /\
    NoDup (map fst input_data) /\
    (forall key v,
        dict_get String.eqb kwargs key = Some v ->
        dict_get String.eqb input_data key = Some v) /\
    (forall i key v,
        parameters f !! i = Some key -> args !! i = Some v ->
        dict_get String.eqb kwargs key = None ->
        dict_get String.eqb input_data key = Some v) /\
    (forall key,
        key ∉ take (length args) (parameters f) ->
        dict_get String.eqb kwargs key = None ->
        dict_get String.eqb input_data key = None).
Proof.
  intros Hparams Hkw Hlen. unfold bound_arguments.
  pose proof (bind_args_spec (parameters f) args 0 [] [] ltac:(lia)) as Hb.
  rewrite decide_True in Hb by (simpl; lia).
  destruct Hb as (d0 & -> & Hnd0 & Hother & Hpos).
  destruct (bind_kwargs_spec kwargs d0 [] Hkw) as (d & -> & Hnd & Hget).
  exists d. simpl. split; [reflexivity|].
  split; [apply Hnd, Hnd0; constructor|].
  split; [intros key v Hv; now rewrite Hget, Hv|].
  split.
  - intros i key v Hi Hv Hnone. rewrite Hget, Hnone.
    now apply (Hpos Hparams i key v).
  - intros key Hkey Hnone. rewrite Hget, Hnone, Hother; [reflexivity|].
    now rewrite drop_0.
Qed.

(** *** Inputs and parameters *)

(** Where an item of [input_data] ends up. *)
Lemma split_inputs_spec self items :
  NoDup (map fst items) ->
  forall parameters inputs s,
    registry_wf s ->
    exists ps ins s',
      split_inputs self items parameters inputs s = (Return (ps, ins), s') /\
      forall key,
        match dict_get String.eqb items key with
        | None =>
            dict_get String.eqb ins key = dict_get String.eqb inputs key /\
            dict_get String.eqb ps key = dict_get String.eqb parameters key
        | Some v =>
            if in_inputs self key then
              (exists h, dict_get String.eqb ins key = Some h /\
                         hash_value h = content_hash v) /\
              dict_get String.eqb ps key = dict_get String.eqb parameters key
            else
              dict_get String.eqb ins key = dict_get String.eqb inputs key /\
              dict_get String.eqb ps key = Some v
        end.
Proof.
  induction items as [|[k0 v0] rest IH]; intros Hnd parameters inputs s Hwf.
  - exists parameters, inputs, s. split; [reflexivity|]. intros key.
    simpl. auto.
  - apply NoDup_cons in Hnd as [Hk0 Hnd]. cbn [split_inputs].
    destruct (in_inputs self k0) eqn:Ein.
    + unfold bind at 1.
      destruct (add_returns v0 s) as (h & s1 & Hadd & _). rewrite Hadd.
      assert (registry_wf s1) as Hwf1.
      { pose proof (add_keeps_wf v0 s Hwf) as Hk. now rewrite Hadd in Hk. }
      destruct (IH Hnd parameters (dict_set String.eqb inputs k0 h) s1 Hwf1)
        as (ps & ins & s' & -> & Hspec).
      exists ps, ins, s'. split; [reflexivity|]. intros key.
      specialize (Hspec key). cbn [dict_get].
      destruct (String.eqb_spec key k0) as [->|Hne].
      * rewrite (dict_get_None rest k0 Hk0) in Hspec.
        rewrite Ein. destruct Hspec as [Hi Hp].
        rewrite dict_get_set, String.eqb_refl in Hi.
        split; [|exact Hp]. exists h. split; [exact Hi|].
        exact (add_hash _ _ _ _ Hwf Hadd).
      * apply String.eqb_neq in Hne.
        now rewrite dict_get_set, Hne in Hspec.
    + destruct (IH Hnd (dict_set String.eqb parameters k0 v0) inputs s Hwf)
        as (ps & ins & s' & -> & Hspec).
      exists ps, ins, s'. split; [reflexivity|]. intros key.
      specialize (Hspec key). cbn [dict_get].
      destruct (String.eqb_spec key k0) as [->|Hne].
      * rewrite (dict_get_None rest k0 Hk0) in Hspec.
        rewrite Ein. destruct Hspec as [Hi Hp].
        now rewrite dict_get_set, String.eqb_refl in Hp.
      * apply String.eqb_neq in Hne.
        now rewrite dict_get_set, Hne in Hspec.
Qed.

(** X14. In a recorded step every bound argument is in exactly one of
    [input] and [params]: an argument named in the declared inputs is in
    [input], as an identity of the hash of its value; any other argument
    is in [params], as the value itself; and the two hold no other
    name. *)
Theorem inputs_and_params_partition
        self f args kwargs caller scope s out s1 analyzer source_line tree :
  active s = true -> enclosing_scope caller scope -> tracked_scope scope s ->
  call f args kwargs (wrapped_frame caller) s = (Return out, s1) ->
  active s1 = true ->
  code_analyzer s1 = Some analyzer ->
  extract_multiline_statement analyzer (f_lineno scope) = Return source_line ->
  ast_parse source_line = Return tree ->
  (length args <= length (parameters f))%nat ->
  (forall ins outs st,
      fst (CallAST_visit self tree ins outs st) = Return tt) ->
  registry_wf s1 ->
  exists s' step input_data,
    call (__call__ self f) args kwargs caller s = (Return out, s') /\
    last (history s') = Some step /\
    bound_arguments f args kwargs = Return input_data /\
    forall key,
      match dict_get String.eqb input_data key with
      | None =>
          dict_get String.eqb (input step) key = None /\
          dict_get String.eqb (params step) key = None
      | Some v =>
          if in_inputs self key then
            (exists h, dict_get String.eqb (input step) key = Some h /\
                       hash_value h = content_hash v) /\
            dict_get String.eqb (params step) key = None
          else
            dict_get String.eqb (input step) key = None /\
            dict_get String.eqb (params step) key = Some v
      end.
Proof.
  intros Ha Hscope Htracked Hcall Ha1 Han Hst Hparse Hlen Hvisit Hwf.
  destruct (wrapped_records self f args kwargs caller scope s out s1
              analyzer source_line tree)
    as (d0 & names & input_data & knames & ps & ins & s2 & outs & s3 & s4 &
        Hb & Hk & Hsplit & _ & _ & Hw); try assumption.
  exists (set_history
            (history s4 ++
             [step_of f ins ps outs names knames tree source_line]) s4),
         (step_of f ins ps outs names knames tree source_line), input_data.
  split; [exact Hw|].
  split; [simpl; apply last_snoc|].
  split; [unfold bound_arguments; now rewrite Hb, Hk|].
  assert (NoDup (map fst input_data)) as Hnd.
  { pose proof (bind_args_spec (parameters f) args 0 [] [] ltac:(lia)) as Hs.
    rewrite decide_True in Hs by (simpl; lia).
    destruct Hs as (d & Hs & Hnd0 & _). rewrite Hb in Hs.
    injection Hs as <- _.
    pose proof (proj2 (bind_kwargs_names kwargs d0 [])) as Hn.
    rewrite Hk in Hn. apply Hn, Hnd0. constructor. }
  destruct (split_inputs_spec self input_data Hnd [] [] s1 Hwf)
    as (ps' & ins' & s2' & Hsplit' & Hspec).
  rewrite Hsplit in Hsplit'. injection Hsplit' as <- <- <-.
  exact Hspec.
Qed.

(** *** The history refers to the registry *)

Lemma registered_mono s s' h :
  keeps_records s s' -> registered s h -> registered s' h.
Proof.
  unfold keeps_records, registered. intros Hk Hr.
  eapply lookup_weaken; eauto.
Qed.

Lemma step_registered_mono s s' step :
  keeps_records s s' -> step_registered s step -> step_registered s' step.
Proof.
  intros Hk [Hi Ho]. split; (eapply Forall_impl; [eassumption|]);
    intros kh; apply registered_mono; assumption.
Qed.

Lemma consistent_step s s' :
  session_consistent s -> keeps_records s s' -> same_history s s' ->
  registry_wf s' -> session_consistent s'.
Proof.
  intros [_ Hh] Hk Hsame Hwf. split; [exact Hwf|].
  unfold same_history in Hsame. rewrite Hsame.
  eapply Forall_impl; [exact Hh|].
  intros step. now apply step_registered_mono.
Qed.

Lemma dict_set_Forall {K V} (eqb : K -> K -> bool) (Q : V -> Prop) d k v :
  Forall (fun kv => Q (snd kv)) d -> Q v ->
  Forall (fun kv => Q (snd kv)) (dict_set eqb d k v).
Proof.
  induction 1 as [|[k0 v0] d Hq Hd IH]; intros Hv; simpl.
  - repeat constructor. exact Hv.
  - destruct (eqb k k0); constructor; simpl in *; auto.
Qed.

Lemma add_registered obj s h s' :
  registry_wf s -> add obj s = (Return h, s') -> registered s' h.
Proof.
  intros Hwf Hadd. unfold registered.
  rewrite (add_hash _ _ _ _ Hwf Hadd).
  destruct (add_returns obj s) as (h' & s'' & Hadd' & Hin).
  rewrite Hadd in Hadd'. now injection Hadd' as <- <-.
Qed.

Lemma add_step_facts obj s h s' :
  registry_wf s -> add obj s = (Return h, s') ->
  registered s' h /\ keeps_records s s' /\ same_history s s' /\
  registry_wf s'.
Proof.
  intros Hwf Hadd.
  pose proof (add_keeps_records obj s) as Hk.
  pose proof (add_same_history obj s) as Hh.
  pose proof (add_keeps_wf obj s Hwf) as Hw.
  rewrite Hadd in Hk, Hh, Hw.
  split; [exact (add_registered _ _ _ _ Hwf Hadd)|auto].
Qed.

Lemma split_inputs_registered self items :
  forall parameters inputs s ps ins s',
    registry_wf s ->
    Forall (fun kh => registered s (snd kh)) inputs ->
    split_inputs self items parameters inputs s = (Return (ps, ins), s') ->
    Forall (fun kh => registered s' (snd kh)) ins /\
    keeps_records s s' /\ same_history s s' /\ registry_wf s'.
Proof.
  induction items as [|[key val] rest IH];
    intros parameters inputs s ps ins s' Hwf Hins; cbn [split_inputs].
  - intros [= <- <- <-]. split; [exact Hins|].
    split; [apply keeps_records_refl|]. split; [reflexivity|exact Hwf].
  - destruct (in_inputs self key); [|now apply IH].
    unfold bind at 1.
    destruct (add_returns val s) as (h & s1 & Hadd & _). rewrite Hadd.
    destruct (add_step_facts _ _ _ _ Hwf Hadd) as (Hh & Hk & Hsame & Hwf1).
    intros Hs. apply IH in Hs as (Hins' & Hk' & Hsame' & Hwf'); auto.
    + split; [exact Hins'|].
      split; [now apply (keeps_records_trans s s1 s')|].
      split; [now apply (same_history_trans s s1 s')|exact Hwf'].
    + apply (dict_set_Forall String.eqb (registered s1)); [|exact Hh].
      eapply Forall_impl; [exact Hins|].
      intros kh. now apply registered_mono.
Qed.

Lemma add_items_registered items :
  forall index outputs s outs s',
    registry_wf s ->
    Forall (fun ih => registered s (snd ih)) outputs ->
    add_items index items outputs s = (Return outs, s') ->
    Forall (fun ih => registered s' (snd ih)) outs /\
    keeps_records s s' /\ same_history s s' /\ registry_wf s'.
Proof.
  induction items as [|item rest IH];
    intros index outputs s outs s' Hwf Houts; cbn [add_items].
  - intros [= <- <-]. split; [exact Houts|].
    split; [apply keeps_records_refl|]. split; [reflexivity|exact Hwf].
  - unfold bind at 1.
    destruct (add_returns item s) as (h & s1 & Hadd & _). rewrite Hadd.
    destruct (add_step_facts _ _ _ _ Hwf Hadd) as (Hh & Hk & Hsame & Hwf1).
    intros Hs. apply IH in Hs as (Houts' & Hk' & Hsame' & Hwf'); auto.
    + split; [exact Houts'|].
      split; [now apply (keeps_records_trans s s1 s')|].
      split; [now apply (same_history_trans s s1 s')|exact Hwf'].
    + apply (dict_set_Forall Nat.eqb (registered s1)); [|exact Hh].
      eapply Forall_impl; [exact Houts|].
      intros ih. now apply registered_mono.
Qed.

Lemma register_outputs_registered function_output s outs s' :
  registry_wf s ->
  register_outputs function_output s = (Return outs, s') ->
  Forall (fun ih => registered s' (snd ih)) outs /\
  keeps_records s s' /\ same_history s s' /\ registry_wf s'.
Proof.
  intros Hwf. unfold register_outputs.
  assert (forall v,
             (let* h := add v in ret (dict_set Nat.eqb [] 0%nat h)) s =
             (Return outs, s') ->
             Forall (fun ih => registered s' (snd ih)) outs /\
             keeps_records s s' /\ same_history s s' /\ registry_wf s')
    as Hone.
  { intros v. unfold bind, ret.
    destruct (add_returns v s) as (h & s1 & Hadd & _). rewrite Hadd.
    intros [= <- <-].
    destruct (add_step_facts _ _ _ _ Hwf Hadd) as (Hh & Hk & Hsame & Hwf1).
    split; [|auto]. repeat constructor. exact Hh. }
  destruct function_output; try apply Hone.
  intros Hs. eapply add_items_registered; eauto.
Qed.

Lemma calling_lineno_state caller s : snd (calling_lineno caller s) = s.
Proof.
  unfold calling_lineno. destruct (active s); [|reflexivity].
  destruct (skip_listcomp caller); [|reflexivity].
  now match goal with |- context [if ?b then _ else _] => destruct b end.
Qed.

(** A call keeps the session consistent when the function and the
    visitor do. *)
Lemma wrapped_keeps_consistent self f args kwargs caller s :
  (forall st, session_consistent st ->
              session_consistent
                (snd (call f args kwargs (wrapped_frame caller) st))) ->
  (forall tree ins outs,
      within keeps_consistent (CallAST_visit self tree ins outs)) ->
  session_consistent s ->
  session_consistent (snd (wrapped self f args kwargs caller s)).
Proof.
  intros Hcall Hvisit Hs. unfold wrapped, bind at 1.
  pose proof (calling_lineno_state caller s) as Hl.
  destruct (calling_lineno caller s) as [[lineno|e] s0]; simpl in Hl; subst s0;
    [|exact Hs].
  unfold bind at 1. specialize (Hcall s Hs).
  destruct (call f args kwargs (wrapped_frame caller) s) as [[out|e] s1];
    simpl in Hcall; [|exact Hcall].
  unfold bind at 1, get.
  destruct (active s1); [|exact Hcall].
  destruct lineno as [lineno|]; [|exact Hcall].
  unfold bind at 1.
  destruct (code_analyzer s1) as [analyzer|]; [|exact Hcall].
  unfold lift at 1.
  destruct (extract_multiline_statement analyzer lineno) as [source_line|e];
    [|exact Hcall].
  unfold bind at 1, lift at 1.
  destruct (ast_parse source_line) as [tree|e]; [|exact Hcall].
  unfold bind at 1, lift at 1.
  destruct (bind_args (parameters f) 0 args [] []) as [[d0 names]|e];
    [|exact Hcall].
  destruct (bind_kwargs kwargs d0 []) as [input_data knames].
  unfold bind at 1.
  destruct (split_inputs_returns self input_data [] [] s1)
    as ([ps ins] & s2 & Hsplit). rewrite Hsplit.
  destruct (split_inputs_registered _ _ _ _ _ _ _ _ (proj1 Hcall)
              ltac:(constructor) Hsplit) as (Hins & Hk2 & Hh2 & Hwf2).
  pose proof (consistent_step _ _ Hcall Hk2 Hh2 Hwf2) as Hs2.
  unfold bind at 1.
  destruct (register_outputs_returns out s2) as (outs & s3 & Hout).
  rewrite Hout.
  destruct (register_outputs_registered _ _ _ _ Hwf2 Hout)
    as (Houts & Hk3 & Hh3 & Hwf3).
  pose proof (consistent_step _ _ Hs2 Hk3 Hh3 Hwf3) as Hs3.
  unfold bind at 1.
  destruct (Hvisit tree ins outs s3) as [Hk4 Hc4].
  specialize (Hc4 Hs3).
  destruct (CallAST_visit self tree ins outs s3) as [[[]|e] s4];
    simpl in Hk4, Hc4; [|exact Hc4].
  unfold bind, modify, ret; simpl.
  destruct Hc4 as [Hwf4 Hh4]. split; [exact Hwf4|]. simpl.
  apply Forall_app. split; [exact Hh4|].
  constructor; [|constructor]. split; simpl.
  - eapply Forall_impl; [exact Hins|]. intros kh Hr.
    apply (registered_mono s3 s4); [exact Hk4|].
    now apply (registered_mono s2 s3).
  - eapply Forall_impl; [exact Houts|]. intros ih.
    now apply registered_mono.
Qed.

Lemma run_keeps_consistent op s :
  respects keeps_consistent op ->
  session_consistent s -> session_consistent (run op s).
Proof.
  destruct op as [obj|caller| |self f args kwargs caller]; simpl.
  - intros _ Hs.
    destruct (add_returns obj s) as (h & s1 & Hadd & _). rewrite Hadd.
    destruct (add_step_facts _ _ _ _ (proj1 Hs) Hadd) as (_ & Hk & Hh & Hwf).
    exact (consistent_step _ _ Hs Hk Hh Hwf).
  - intros _ Hs. apply (consistent_step s); [exact Hs| | |].
    + unfold keeps_records. now rewrite activate_objects.
    + unfold same_history. apply activate_history.
    + eapply registry_wf_objects; [|exact (proj1 Hs)].
      apply activate_objects.
  - intros _ Hs. exact Hs.
  - intros [Hcall Hvisit]. apply wrapped_keeps_consistent; [|exact Hvisit].
    intros st. apply Hcall.
Qed.

(** X15. Over a session that starts from the initial state, every
    identity among the inputs and outputs of every step of the history is
    the record that the registry holds under its hash, provided the
    decorated functions and the syntax tree visitor keep it so. *)
Theorem history_refers_to_registry ops :
  Forall (respects keeps_consistent) ops ->
  session_consistent (run_all ops initial_state).
Proof.
  intros Hops.
  assert (session_consistent initial_state) as Hinit.
  { split; [apply initial_state_wf|constructor]. }
  revert Hinit. generalize initial_state.
  induction Hops as [|op ops Hop _ IH]; intros s Hs; simpl; [exact Hs|].
  apply IH. now apply run_keeps_consistent.
Qed.

End SessionProperties.

(** *** The path and its extension *)

Lemma append_empty_r (p : string) : String.append p EmptyString = p.
Proof.
  induction p as [|c p IH]; [reflexivity|].
  change (String c (String.append p EmptyString) = String c p).
  now rewrite IH.
Qed.

Lemma substring_whole (p : string) : substring 0 (String.length p) p = p.
Proof.
  induction p as [|c p IH]; [reflexivity|].
  change (String c (substring 0 (String.length p) p) = String c p).
  now rewrite IH.
Qed.

Lemma substring_split (p : string) :
  forall n, (n <= String.length p)%nat ->
            String.append (substring 0 n p)
                          (substring n (String.length p - n) p) = p.
Proof.
  induction p as [|c p IH]; intros [|n] Hn.
  - reflexivity.
  - simpl in Hn. lia.
  - change (substring 0 (S (String.length p)) (String c p) = String c p).
    apply (substring_whole (String c p)).
  - change (String c (String.append
                        (substring 0 n p)
                        (substring n (String.length p - n) p)) =
            String c p).
    rewrite IH; [reflexivity|]. simpl in Hn. lia.
Qed.

Lemma rfind_from_bounds c (p : string) :
  forall i found,
    rfind_from c p i found = found \/
    i <= rfind_from c p i found < i + Z.of_nat (String.length p).
Proof.
  induction p as [|a p IH]; intros i found; simpl; [now left|].
  destruct (IH (i + 1) (if Ascii.eqb a c then i else found)) as [->|Hr].
  - destruct (Ascii.eqb a c); [right; lia|now left].
  - right. lia.
Qed.

Lemma splitext_loop_join (p : string) dotIndex :
  0 <= dotIndex <= Z.of_nat (String.length p) ->
  forall n filenameIndex,
    String.append (fst (_splitext_loop p dotIndex filenameIndex n))
                  (snd (_splitext_loop p dotIndex filenameIndex n)) = p.
Proof.
  intros Hdot n. induction n as [|n IH]; intros filenameIndex;
    cbn [_splitext_loop].
  - apply append_empty_r.
  - destruct (filenameIndex <? dotIndex); [|apply append_empty_r].
    destruct (negb (String.eqb (slice p filenameIndex (filenameIndex + 1))
                               ".")); [|apply IH].
    cbn [fst snd]. unfold slice.
    replace (Z.to_nat (dotIndex - 0)) with (Z.to_nat dotIndex) by lia.
    replace (Z.to_nat (Z.of_nat (String.length p) - dotIndex))
      with (String.length p - Z.to_nat dotIndex)%nat by lia.
    apply substring_split. lia.
Qed.

(** The two parts that [splitext] returns make up the path. *)
Lemma splitext_join (p : string) :
  String.append (fst (splitext p)) (snd (splitext p)) = p.
Proof.
  unfold splitext.
  destruct (rfind "." p >? rfind "/" p) eqn:Hgt;
    [|apply append_empty_r].
  apply splitext_loop_join.
  pose proof (rfind_from_bounds "." p 0 (-1)) as Hd.
  pose proof (rfind_from_bounds "/" p 0 (-1)) as Hs.
  unfold rfind in *. lia.
Qed.

Section ExportProperties.

Context `{Analysis}.

(** X16. [save_graph] either raises its [ValueError], leaving the file
    system as it is, or the path ends with an extension that is [.html]
    or [.htm] up to case and the graph of the history is handed to
    [to_pyvis]: only paths with such an ending are written. *)
Theorem save_graph_accepts_html_suffix filename show s w :
  (exists root ext,
      filename = String.append root ext /\
      html_extension ext = true /\
      save_graph filename show s w =
      to_pyvis (fold_left add_step (history s) BuffaloProvenanceGraph)
               filename show w) \/
  save_graph filename show s w =
  (Raise (ValueError "Filename must have HTML extension (.html, .htm)!"), w).
Proof.
  pose proof (splitext_join filename) as Hjoin.
  unfold save_graph, Provenance_save_graph.
  destruct (splitext filename) as [root ext]; simpl in Hjoin.
  rewrite lower_in_html.
  destruct (html_extension ext) eqn:E; [left|right; reflexivity].
  exists root, ext. now repeat split.
Qed.

End ExportProperties.

(** ** The properties on the tracked script *)

Section Checks.

#[local] Existing Instance Demo.platform.
#[local] Existing Instance Demo.analysis.

Import Demo.

Lemma script_scope lineno : enclosing_scope (script_frame lineno) (script_frame lineno).
Proof. apply scope_here. discriminate. Qed.


(** Line 9 is past the end of the listing: its statement cannot be
    resolved. *)
Lemma resolution_error_propagates_witness :
  call (__call__ (tracker ["a"; "b"]) add_fn) [VInt 1; VInt 2] []
       (script_frame 9) tracking =
  (Raise (Exn "ValueError" "statement not found"), tracking).
Proof.
  apply (resolution_error_propagates
           (tracker ["a"; "b"]) add_fn [VInt 1; VInt 2] []
           (script_frame 9) (script_frame 9) tracking (VInt 3) tracking
           (script, 1)).
  - reflexivity.
  - apply script_scope.
  - split; reflexivity.
  - reflexivity.
  - reflexivity.
  - reflexivity.
  - left. reflexivity.
Defined.

(** C1 fails on the code: [add(1, 2)] called from the tracked script
    returns 3, but when the statement of the calling line cannot be
    resolved the decorated call raises the resolution error and the 3 is
    lost. *)
Lemma resolution_error_aborts_call :
  calling_lineno (script_frame 9) tracking = (Return (Some 9), tracking) /\
  call add_fn [VInt 1; VInt 2] [] (wrapped_frame (script_frame 9)) tracking =
  (Return (VInt 3), tracking) /\
  option_map (fun a => extract_multiline_statement a 9)
             (code_analyzer tracking) =
  Some (Raise (Exn "ValueError" "statement not found")) /\
  fst (call (__call__ (tracker ["a"; "b"]) add_fn) [VInt 1; VInt 2] []
            (script_frame 9) tracking) =
  Raise (Exn "ValueError" "statement not found") /\
  fst (call (__call__ (tracker ["a"; "b"]) add_fn) [VInt 1; VInt 2] []
            (script_frame 9) tracking) <> Return (VInt 3).
Proof. repeat split; try reflexivity. discriminate. Qed.

Lemma inactive_call_is_transparent_witness :
  active initial_state = false /\
  call (__call__ (tracker ["a"; "b"]) add_fn) [VInt 1; VInt 2] []
       (script_frame 1) initial_state =
  call add_fn [VInt 1; VInt 2] [] (wrapped_frame (script_frame 1))
       initial_state /\
  history (snd (call (__call__ (tracker ["a"; "b"]) add_fn)
                     [VInt 1; VInt 2] [] (script_frame 1) initial_state)) =
  history (snd (call add_fn [VInt 1; VInt 2] []
                     (wrapped_frame (script_frame 1)) initial_state)).
Proof.
  split; [reflexivity|].
  apply (inactive_call_is_transparent
           (tracker ["a"; "b"]) add_fn [VInt 1; VInt 2] []
           (script_frame 1) initial_state).
  reflexivity.
Defined.

Lemma session_removes_no_record : Forall removes_no_record session.
Proof.
  repeat constructor; intros; intros s; unfold keeps_records; reflexivity.
Qed.

Lemma registry_records_persist_witness :
  objects (run_all [OpAdd (VInt 7)] initial_state) ⊆
  objects (run_all session (run_all [OpAdd (VInt 7)] initial_state)) /\
  objects (snd (deactivate (run_all [OpAdd (VInt 7)] initial_state))) =
  objects (run_all [OpAdd (VInt 7)] initial_state) /\
  forall caller,
    objects (snd (activate caller
                           (run_all [OpAdd (VInt 7)] initial_state))) =
    objects (run_all [OpAdd (VInt 7)] initial_state).
Proof.
  apply (registry_records_persist
           session (run_all [OpAdd (VInt 7)] initial_state)).
  exact session_removes_no_record.
Defined.

(** C3 fails on the code where it has the registry reset: after
    [deactivate()], and after a new [activate()], the registry still holds
    the record of the object registered before. *)
Lemma deactivation_keeps_registry :
  objects (run_all [OpAdd (VInt 7)] initial_state) !! 17 =
  Some {| hash_value := 17; value_of := VInt 7 |} /\
  objects (run_all [OpAdd (VInt 7); OpDeactivate] initial_state) !! 17 =
  Some {| hash_value := 17; value_of := VInt 7 |} /\
  objects (run_all [OpAdd (VInt 7); OpDeactivate;
                    OpActivate (script_frame 1)] initial_state) !! 17 =
  Some {| hash_value := 17; value_of := VInt 7 |} /\
  objects (run_all [OpAdd (VInt 7); OpDeactivate] initial_state) <> ∅.
Proof.
  repeat split; try reflexivity.
  intros E. apply (f_equal (fun m => m !! 17)) in E. discriminate.
Qed.

Lemma registered_once_wf v : registry_wf (snd (add v initial_state)).
Proof. apply add_keeps_wf, initial_state_wf. Qed.

(** Two registrations in a registry that holds a record already: of 7
    beside the record of 1, a new hash; and of -1 beside the record of
    [True], which has the same hash. *)
Lemma add_twice_same_identity_witness :
  (exists h s1,
      add (VInt 7) (snd (add (VInt 1) initial_state)) = (Return h, s1) /\
      objects s1 !! content_hash (VInt 7) = Some h /\
      hash_value h = content_hash (VInt 7) /\
      (forall known,
          objects (snd (add (VInt 1) initial_state))
            !! content_hash (VInt 7) = Some known ->
          h = known /\ s1 = snd (add (VInt 1) initial_state)) /\
      (objects (snd (add (VInt 1) initial_state))
         !! content_hash (VInt 7) = None ->
       h = {| hash_value := content_hash (VInt 7); value_of := VInt 7 |} /\
       objects s1 =
       <[content_hash (VInt 7) := h]>
         (objects (snd (add (VInt 1) initial_state)))) /\
      (forall k, k <> content_hash (VInt 7) ->
                 objects s1 !! k =
                 objects (snd (add (VInt 1) initial_state)) !! k) /\
      add (VInt 7) s1 = (Return h, s1) /\
      (forall obj', content_hash obj' = content_hash (VInt 7) ->
                    add obj' s1 = (Return h, s1)) /\
      registry_wf s1 /\
      (forall k1 k2 r1 r2,
          objects s1 !! k1 = Some r1 -> objects s1 !! k2 = Some r2 ->
          hash_value r1 = hash_value r2 -> k1 = k2 /\ r1 = r2)) /\
  (exists h s1,
      add (VInt (-1)) (snd (add (VBool true) initial_state)) =
      (Return h, s1) /\
      objects s1 !! content_hash (VInt (-1)) = Some h /\
      hash_value h = content_hash (VInt (-1)) /\
      (forall known,
          objects (snd (add (VBool true) initial_state))
            !! content_hash (VInt (-1)) = Some known ->
          h = known /\ s1 = snd (add (VBool true) initial_state)) /\
      (objects (snd (add (VBool true) initial_state))
         !! content_hash (VInt (-1)) = None ->
       h = {| hash_value := content_hash (VInt (-1));
              value_of := VInt (-1) |} /\
       objects s1 =
       <[content_hash (VInt (-1)) := h]>
         (objects (snd (add (VBool true) initial_state)))) /\
      (forall k, k <> content_hash (VInt (-1)) ->
                 objects s1 !! k =
                 objects (snd (add (VBool true) initial_state)) !! k) /\
      add (VInt (-1)) s1 = (Return h, s1) /\
      (forall obj', content_hash obj' = content_hash (VInt (-1)) ->
                    add obj' s1 = (Return h, s1)) /\
      registry_wf s1 /\
      (forall k1 k2 r1 r2,
          objects s1 !! k1 = Some r1 -> objects s1 !! k2 = Some r2 ->
          hash_value r1 = hash_value r2 -> k1 = k2 /\ r1 = r2)).
Proof.
  split.
  - apply (add_twice_same_identity
             (VInt 7) (snd (add (VInt 1) initial_state))).
    exact (registered_once_wf (VInt 1)).
  - apply (add_twice_same_identity
             (VInt (-1)) (snd (add (VBool true) initial_state))).
    exact (registered_once_wf (VBool true)).
Defined.

(** What the two registrations return: the new record of 7, and the
    record of [True] for -1. *)
Example add_returns_registry_record :
  add (VInt 7) (snd (add (VInt 1) initial_state)) =
  (Return {| hash_value := 17; value_of := VInt 7 |},
   set_objects
     (<[17 := {| hash_value := 17; value_of := VInt 7 |}]>
        (objects (snd (add (VInt 1) initial_state))))
     (snd (add (VInt 1) initial_state))) /\
  add (VInt (-1)) (snd (add (VBool true) initial_state)) =
  (Return {| hash_value := 1; value_of := VBool true |},
   snd (add (VBool true) initial_state)).
Proof. split; reflexivity. Qed.



(** A call made in a list comprehension of a library function, itself
    called from the tracked script: the scope is the library function. *)
Lemma call_from_elsewhere_not_recorded_witness :
  fst (call (__call__ (tracker ["a"; "b"]) add_fn) [VInt 1; VInt 2] []
            library_listcomp_frame tracking) =
  fst (call add_fn [VInt 1; VInt 2] []
            (wrapped_frame library_listcomp_frame) tracking) /\
  history (snd (call (__call__ (tracker ["a"; "b"]) add_fn)
                     [VInt 1; VInt 2] [] library_listcomp_frame tracking)) =
  history (snd (call add_fn [VInt 1; VInt 2] []
                     (wrapped_frame library_listcomp_frame) tracking)) /\
  co_name library_frame <> "<listcomp>".
Proof.
  apply (call_from_elsewhere_not_recorded
           (tracker ["a"; "b"]) add_fn [VInt 1; VInt 2] []
           library_listcomp_frame library_frame tracking).
  - reflexivity.
  - apply skip_listcomp_sound. reflexivity.
  - intros [Hfile _]. discriminate Hfile.
Defined.

Lemma save_graph_checks_extension_witness :
  save_graph "trace.txt" false tracking [] =
  (Raise (ValueError "Filename must have HTML extension (.html, .htm)!"),
   []) /\
  save_graph "out/trace.HTM" true tracking [] =
  to_pyvis (fold_left add_step (history tracking) BuffaloProvenanceGraph)
           "out/trace.HTM" true [].
Proof.
  split.
  - apply (proj1 (@save_graph_checks_extension
                    platform analysis "trace.txt" false tracking [])).
    reflexivity.
  - apply (proj2 (@save_graph_checks_extension
                    platform analysis "out/trace.HTM" true tracking [])).
    reflexivity.
Defined.

Lemma function_exception_propagates_witness :
  call (__call__ (tracker ["x"]) failing_fn) [VInt 3] [] (script_frame 1)
       tracking = (Raise (ValueError "bad input"), tracking) /\
  history (snd (call (__call__ (tracker ["x"]) failing_fn) [VInt 3] []
                     (script_frame 1) tracking)) = history tracking.
Proof.
  apply (function_exception_propagates
           (tracker ["x"]) failing_fn [VInt 3] [] (script_frame 1)
           (script_frame 1) tracking).
  - apply script_scope.
  - reflexivity.
Defined.

Lemma call_from_elsewhere_registers_nothing_witness :
  objects (snd (call (__call__ (tracker ["a"; "b"]) add_fn)
                     [VInt 1; VInt 2] [] library_frame tracking)) =
  objects (snd (call add_fn [VInt 1; VInt 2] []
                     (wrapped_frame library_frame) tracking)).
Proof.
  apply (call_from_elsewhere_registers_nothing
           (tracker ["a"; "b"]) add_fn [VInt 1; VInt 2] []
           library_frame library_frame tracking).
  - reflexivity.
  - apply scope_here. discriminate.
  - intros [Hfile _]. discriminate Hfile.
Defined.

Lemma recorded_function_is_original_witness :
  __name__ (__call__ (tracker ["a"; "b"]) add_fn) = "add" /\
  __module__ (__call__ (tracker ["a"; "b"]) add_fn) = "__main__" /\
  __doc__ (__call__ (tracker ["a"; "b"]) add_fn) = None /\
  exists s' step,
    call (__call__ (tracker ["a"; "b"]) add_fn) [VInt 1; VInt 2] []
         (script_frame 1) tracking = (Return (VInt 3), s') /\
    last (history s') = Some step /\
    function step =
    {| name := "add"; module := "__main__"; version := None |}.
Proof.
  apply (recorded_function_is_original
           (tracker ["a"; "b"]) add_fn [VInt 1; VInt 2] [] (script_frame 1)
           (script_frame 1) tracking (VInt 3) tracking
           (script, 1) "total = add(1, 2)" "total = add(1, 2)").
  - reflexivity.
  - apply script_scope.
  - split; reflexivity.
  - reflexivity.
  - reflexivity.
  - reflexivity.
  - reflexivity.
  - reflexivity.
  - simpl. lia.
  - reflexivity.
Defined.

(** *** More of the script *)

(** The call of line 4 is made in a list comprehension of the script: it
    is recorded with the statement of that line. *)
Example listcomp_call_is_recorded :
  option_map code_statement
    (last (history (snd (call (__call__ (tracker ["x"]) square_fn)
                              [VInt 3] [] (listcomp_frame 4) tracking)))) =
  Some "squares = [square(total) for _ in range(2)]".
Proof. reflexivity. Qed.

(** A function decorated twice: the inner wrapper is called from
    [wrapped] and records nothing, and the outer one records the call
    under the name of the function. *)
Example decorated_twice_keeps_name :
  map function
      (history (snd (call (__call__ (tracker ["a"])
                                    (__call__ (tracker ["a"; "b"]) add_fn))
                          [VInt 1; VInt 2] [] (script_frame 1) tracking))) =
  [{| name := "add"; module := "__main__"; version := None |}].
Proof. reflexivity. Qed.

(** The two calls [add(1, 2)] and [square(total)] of a script: two steps,
    and the input of the second is the output of the first. *)
Example chained_calls_share_identity :
  let s1 := snd (call (__call__ (tracker ["a"; "b"]) add_fn)
                      [VInt 1; VInt 2] [] (script_frame 1) tracking) in
  let s2 := snd (call (__call__ (tracker ["x"]) square_fn)
                      [VInt 3] [] (listcomp_frame 4) s1) in
  map output (history s2) =
  [[(0%nat, {| hash_value := 9; value_of := VInt 3 |})];
   [(0%nat, {| hash_value := 21; value_of := VInt 9 |})]] /\
  map input (history s2) =
  [[("a", {| hash_value := 5; value_of := VInt 1 |});
    ("b", {| hash_value := 7; value_of := VInt 2 |})];
   [("x", {| hash_value := 9; value_of := VInt 3 |})]] /\
  size (objects s2) = 4%nat.
Proof. repeat split; reflexivity. Qed.

Example init_accepts_a_list :
  __init__ (VList [VStr "a"; VStr "b"]) = Return (tracker ["a"; "b"]) /\
  __init__ (VStr "a") = Raise (ValueError "`inputs` must be a list").
Proof. split; reflexivity. Qed.

Example splitext_examples :
  splitext "trace.html" = ("trace", ".html") /\
  splitext "out.d/trace" = ("out.d/trace", "") /\
  splitext ".html" = (".html", "") /\
  splitext "archive.tar.HTM" = ("archive.tar", ".HTM").
Proof. repeat split; reflexivity. Qed.

Example html_extension_examples :
  html_extension ".html" = true /\ html_extension ".HtM" = true /\
  html_extension ".txt" = false /\ html_extension "" = false /\
  html_extension ".htmls" = false.
Proof. repeat split; reflexivity. Qed.

End Checks.

(** ** The further properties on the script of [run_psd.py] *)

Section PsdChecks.

#[local] Existing Instance Psd.platform.
#[local] Existing Instance Psd.analysis.

Import Psd.

Lemma psd_script_scope lineno :
  enclosing_scope (script_frame lineno) (script_frame lineno).
Proof. apply scope_here. discriminate. Qed.

Lemma psd_tracking_wf : registry_wf tracking.
Proof. intros k r. unfold tracking; simpl. now rewrite lookup_empty. Qed.

Lemma psd_tracked lineno : tracked_scope (script_frame lineno) tracking.
Proof. split; reflexivity. Qed.

Lemma psd_listcomp_scope lineno :
  enclosing_scope (listcomp_frame lineno) (script_frame lineno).
Proof. apply skip_listcomp_sound. reflexivity. Qed.

(** A call made in a list comprehension at line 4 of the script. *)
Lemma activation_binds_scope_witness :
  fst (activate (script_frame 1) initial_state) = Return tt /\
  active (snd (activate (script_frame 1) initial_state)) = true /\
  history (snd (activate (script_frame 1) initial_state)) = [] /\
  objects (snd (activate (script_frame 1) initial_state)) = ∅ /\
  code_analyzer (snd (activate (script_frame 1) initial_state)) =
  Some (script, 1) /\
  calling_lineno (listcomp_frame 4)
                 (snd (activate (script_frame 1) initial_state)) =
  (Return (Some 4), snd (activate (script_frame 1) initial_state)).
Proof.
  exact (activation_binds_scope
           (script_frame 1) script _ initial_state (listcomp_frame 4)
           (script_frame 4) eq_refl eq_refl (psd_listcomp_scope 4)).
Defined.

Lemma failed_activation_keeps_flag_witness :
  fst (activate unreadable_frame tracking) =
  Raise (Exn "OSError" "could not get source code") /\
  active (snd (activate unreadable_frame tracking)) = true /\
  history (snd (activate unreadable_frame tracking)) = [] /\
  objects (snd (activate unreadable_frame tracking)) = ∅ /\
  code_analyzer (snd (activate unreadable_frame tracking)) =
  Some (script, 1) /\
  source_file (snd (activate unreadable_frame tracking)) = Some "<stdin>" /\
  source_name (snd (activate unreadable_frame tracking)) = Some "<module>".
Proof.
  apply (failed_activation_keeps_flag
           unreadable_frame (Exn "OSError" "could not get source code")
           tracking).
  left. reflexivity.
Defined.

Lemma activation_overrides_earlier_witness :
  snd (activate (script_frame 1)
                (snd (activate unreadable_frame initial_state))) = tracking.
Proof.
  eapply (activation_overrides_earlier
            unreadable_frame (script_frame 1) script _ initial_state);
    reflexivity.
Defined.

Lemma call_ending_inactive_not_recorded_witness :
  call (__call__ {| inputs := [] |} stop_tracking) [] [] (script_frame 3)
       tracking =
  (Return VNone, snd (deactivate tracking)).
Proof.
  apply (call_ending_inactive_not_recorded
           {| inputs := [] |} stop_tracking [] [] (script_frame 3)
           (script_frame 3) tracking VNone (snd (deactivate tracking))).
  - apply psd_script_scope.
  - reflexivity.
  - reflexivity.
Defined.

(** [True] and [-1] have the same hash. *)
Lemma same_hash_same_identity_witness :
  exists h s1,
    add (VBool true) tracking = (Return h, s1) /\
    add (VInt (-1)) s1 = (Return h, s1) /\
    value_of h = VBool true /\ hash_value h = content_hash (VInt (-1)).
Proof.
  apply (same_hash_same_identity (VBool true) (VInt (-1)) tracking);
    reflexivity.
Defined.

Lemma script_variable_after_activation_witness :
  (dict_get String.eqb (locals (script_frame 1)) "psd" = None ->
   add_script_variable locals "psd" tracking =
   (Raise (KeyError "psd"), tracking)) /\
  (forall v,
      dict_get String.eqb (locals (script_frame 1)) "psd" = Some v ->
      exists h s',
        add_script_variable locals "psd" tracking = (Return (v, h), s') /\
        objects s' !! content_hash v = Some h /\
        objects initial_state ⊆ objects s' /\
        history s' = history initial_state /\
        same_binding tracking s') /\
  add_script_variable locals "psd" initial_state =
  (Raise (AttributeError "'NoneType' object has no attribute 'f_locals'"),
   initial_state).
Proof.
  eapply (script_variable_after_activation
            locals (script_frame 1) script _ initial_state "psd");
    reflexivity.
Defined.

Lemma psd_session_history_grows : Forall (respects history_grows) session.
Proof.
  repeat constructor; intros; intros s; unfold history_grows; reflexivity.
Qed.

Lemma history_is_append_only_witness :
  history tracking `prefix_of` history (run_all session tracking).
Proof.
  apply (history_is_append_only session tracking).
  exact psd_session_history_grows.
Defined.

Lemma wrapper_leaves_binding_witness :
  same_binding
    tracking
    (snd (call (__call__ plot_inputs plot_lfp_psd)
               [axes; freqs; avg_psd; VStr "AnalysisObject"]
               [("freq_range", VList [VInt 0; VInt 49])]
               (script_frame 5) tracking)).
Proof.
  apply (wrapper_leaves_binding
           plot_inputs plot_lfp_psd
           [axes; freqs; avg_psd; VStr "AnalysisObject"]
           [("freq_range", VList [VInt 0; VInt 49])]
           (script_frame 5) tracking).
  - intros s. apply same_binding_refl.
  - intros tree ins outs s. apply same_binding_refl.
Defined.

(** [largest(low, high)] at line 6: two positional arguments for the one
    name of the signature. *)
Lemma too_many_positional_arguments_witness :
  call (__call__ {| inputs := [VStr "values"] |} largest)
       [VInt 1; VInt 50] [] (script_frame 6) tracking =
  (Raise (IndexError "tuple index out of range"), tracking).
Proof.
  apply (too_many_positional_arguments
           {| inputs := [VStr "values"] |} largest [VInt 1; VInt 50] []
           (script_frame 6) (script_frame 6) tracking (VInt 50) tracking
           (script, 1) "peak = largest(low, high)" "peak = largest(low, high)").
  - reflexivity.
  - apply psd_script_scope.
  - apply psd_tracked.
  - reflexivity.
  - reflexivity.
  - reflexivity.
  - reflexivity.
  - reflexivity.
  - simpl. lia.
Defined.

(** The call of [plot_lfp_psd] at line 5 of the script. *)
Lemma recorded_call_appends_one_step_witness :
  exists s' step,
    call (__call__ plot_inputs plot_lfp_psd)
         [axes; freqs; avg_psd; VStr "AnalysisObject"]
         [("freq_range", VList [VInt 0; VInt 49])]
         (script_frame 5) tracking = (Return VNone, s') /\
    history s' = (history tracking ++ [step])%list /\
    code_statement step =
    "plot_lfp_psd(axes, freqs, avg_psd, 'AnalysisObject', freq_range=[0, 49])"
    /\
    call_ast step =
    "plot_lfp_psd(axes, freqs, avg_psd, 'AnalysisObject', freq_range=[0, 49])"
    /\
    arg_map step = ["axes"; "freqs"; "psd"; "label"] /\
    kwarg_map step = ["freq_range"].
Proof.
  apply (recorded_call_appends_one_step
           plot_inputs plot_lfp_psd
           [axes; freqs; avg_psd; VStr "AnalysisObject"]
           [("freq_range", VList [VInt 0; VInt 49])]
           (script_frame 5) (script_frame 5) tracking VNone tracking
           (script, 1)).
  - reflexivity.
  - apply psd_script_scope.
  - apply psd_tracked.
  - reflexivity.
  - reflexivity.
  - reflexivity.
  - reflexivity.
  - reflexivity.
  - simpl. lia.
  - reflexivity.
  - reflexivity.
  - intros ins outs s. reflexivity.
Defined.

Lemma plot_names_NoDup : NoDup (parameters plot_lfp_psd).
Proof. apply NoDup_ListNoDup. repeat constructor; simpl; intuition discriminate. Qed.

Lemma arguments_bound_by_name_witness :
  exists input_data,
    bound_arguments plot_lfp_psd
                    [axes; freqs; avg_psd; VStr "AnalysisObject"]
                    [("freq_range", VList [VInt 0; VInt 49])] =
    Return input_data /\
    NoDup (map fst input_data) /\
    (forall key v,
        dict_get String.eqb [("freq_range", VList [VInt 0; VInt 49])] key =
        Some v ->
        dict_get String.eqb input_data key = Some v) /\
    (forall i key v,
        parameters plot_lfp_psd !! i = Some key ->
        [axes; freqs; avg_psd; VStr "AnalysisObject"] !! i = Some v ->
        dict_get String.eqb [("freq_range", VList [VInt 0; VInt 49])] key =
        None ->
        dict_get String.eqb input_data key = Some v) /\
    (forall key,
        key ∉ take 4 (parameters plot_lfp_psd) ->
        dict_get String.eqb [("freq_range", VList [VInt 0; VInt 49])] key =
        None ->
        dict_get String.eqb input_data key = None).
Proof.
  apply (arguments_bound_by_name
           plot_lfp_psd [axes; freqs; avg_psd; VStr "AnalysisObject"]
           [("freq_range", VList [VInt 0; VInt 49])]).
  - exact plot_names_NoDup.
  - apply NoDup_singleton.
  - simpl. lia.
Defined.

Lemma inputs_and_params_partition_witness :
  exists s' step input_data,
    call (__call__ plot_inputs plot_lfp_psd)
         [axes; freqs; avg_psd; VStr "AnalysisObject"]
         [("freq_range", VList [VInt 0; VInt 49])]
         (script_frame 5) tracking = (Return VNone, s') /\
    last (history s') = Some step /\
    bound_arguments plot_lfp_psd
                    [axes; freqs; avg_psd; VStr "AnalysisObject"]
                    [("freq_range", VList [VInt 0; VInt 49])] =
    Return input_data /\
    forall key,
      match dict_get String.eqb input_data key with
      | None =>
          dict_get String.eqb (input step) key = None /\
          dict_get String.eqb (params step) key = None
      | Some v =>
          if in_inputs plot_inputs key then
            (exists h, dict_get String.eqb (input step) key = Some h /\
                       hash_value h = content_hash v) /\
            dict_get String.eqb (params step) key = None
          else
            dict_get String.eqb (input step) key = None /\
            dict_get String.eqb (params step) key = Some v
      end.
Proof.
  apply (inputs_and_params_partition
           plot_inputs plot_lfp_psd
           [axes; freqs; avg_psd; VStr "AnalysisObject"]
           [("freq_range", VList [VInt 0; VInt 49])]
           (script_frame 5) (script_frame 5) tracking VNone tracking
           (script, 1)
           "plot_lfp_psd(axes, freqs, avg_psd, 'AnalysisObject', freq_range=[0, 49])"
           "plot_lfp_psd(axes, freqs, avg_psd, 'AnalysisObject', freq_range=[0, 49])").
  - reflexivity.
  - apply psd_script_scope.
  - apply psd_tracked.
  - reflexivity.
  - reflexivity.
  - reflexivity.
  - reflexivity.
  - reflexivity.
  - simpl. lia.
  - reflexivity.
  - exact psd_tracking_wf.
Defined.

Lemma psd_session_consistent : Forall (respects keeps_consistent) session.
Proof.
  assert (forall A (a : A), within keeps_consistent (ret a)) as Hret.
  { intros A a s. split; [apply keeps_records_refl|auto]. }
  unfold session.
  repeat first [apply Forall_nil_2|apply Forall_cons_2];
    try exact I; (split; [apply Hret|intros; apply Hret]).
Qed.

Lemma history_refers_to_registry_witness :
  session_consistent (run_all session initial_state).
Proof.
  apply (history_refers_to_registry session).
  exact psd_session_consistent.
Defined.

(** The session of the script: two steps, and six records in the
    registry, the signal being registered once. *)
Example psd_session_outcome :
  map (fun step => name (function step))
      (history (run_all session initial_state)) =
  ["welch_psd"; "plot_lfp_psd"] /\
  map (fun step => map fst (input step))
      (history (run_all session initial_state)) =
  [["signal"]; ["axes"; "freqs"; "psd"]] /\
  map (fun step => map fst (params step))
      (history (run_all session initial_state)) =
  [[]; ["label"; "freq_range"]] /\
  map (fun step => map fst (output step))
      (history (run_all session initial_state)) =
  [[0%nat; 1%nat]; [0%nat]] /\
  size (objects (run_all session initial_state)) = 6%nat /\
  active (run_all session initial_state) = false.
Proof. repeat split; reflexivity. Qed.

End PsdChecks.
